(** * express-jobly: the partial-update clause builder, the auth middleware,
    the models and their routes

    A shallow embedding of [helpers/sql.js] ([sqlForPartialUpdate]), of
    [middleware/auth.js] ([authenticateJWT], [ensureLoggedIn], [ensureAdmin],
    [ensureCorrectUserOrAdmin]), of the functions of [models/company.js] and
    [models/user.js] that carry logic of their own, and of the routes of
    [routes/companies.js] and [routes/users.js] that use them.

    Conventions of the embedding.
    - A JavaScript string is a [string]; inside the middleware one [ascii]
      stands for one code unit below 256, which is what Node hands over for
      header values.
    - A plain object read with [Object.keys] / [Object.values] is the list of
      its own enumerable properties in enumeration order; an object that is
      only indexed ([jsToSql], [req.headers], [req.params]) is a [gmap] of its
      own properties, a missing key reading as [undefined] ([None]).
      The one read with a key that comes from outside, [jsToSql[colName]],
      also finds the members inherited from [Object.prototype]; every other
      read uses a fixed name that is not one of them.
    - [throw] / [try]..[catch] are an error monad over [jsError]; the
      middleware also threads [res.locals], the models thread the world the
      database driver and bcrypt act on.
    - What the repository takes from libraries or from files it does not
      ship ([jwt.verify], [db.query], bcrypt, the schema validators, the
      numeric conversions of the engine) is a variable of a section. *)

From Stdlib Require Import Ascii String.
From stdpp Require Import base option list strings pretty gmap.

Local Open Scope string_scope.

(** ** JavaScript values and errors *)

(** The double quote, written by code so that no literal has to escape it. *)
Definition dquote : string := String "034"%char EmptyString.

(** Values a request body can hold for a field. *)
Inductive value : Type :=
  | VNull
  | VBool (b : bool)
  | VNum (n : Z)
  | VStr (s : string).

#[global] Instance value_eq_dec : EqDecision value.
Proof. solve_decision. Defined.

(** The message of a [BadRequestError]: the routes pass either one string or
    the array of validation messages. *)
Inductive message : Type :=
  | Msg (s : string)
  | Msgs (l : list string).

(** The exceptions the modelled code throws or lets through. The first three
    are the classes of [expressError.js]; [TypeError] is the engine's fault on
    a property read of [undefined]; the last two come from [jwt.verify];
    [DatabaseError] is whatever [db.query] rejects with. *)
Inductive jsError : Type :=
  | BadRequestError (m : message)
  | UnauthorizedError
  | NotFoundError (m : string)
  | TypeError
  | JsonWebTokenError (m : string)
  | TokenExpiredError
  | DatabaseError (m : string).

(** ToBoolean on a string: only the empty string is falsy. *)
Definition truthy (s : string) : bool :=
  match s with
  | EmptyString => false
  | String _ _ => true
  end.

(** [x || d] where [x] is [undefined] or a string and [d] a string. *)
Definition or_else (x : option string) (d : string) : string :=
  match x with
  | Some s => if truthy s then s else d
  | None => d
  end.

(** ** helpers/sql.js *)

Module Sql.

Definition Object_keys {V : Type} (o : list (string * V)) : list string := o.*1.
Definition Object_values {V : Type} (o : list (string * V)) : list V := o.*2.

(** [Array.prototype.join] on an array of strings. *)
Fixpoint join (sep : string) (l : list string) : string :=
  match l with
  | [] => EmptyString
  | [x] => x
  | x :: rest => x +:+ sep +:+ join sep rest
  end.

Record clause : Type := Clause { setCols : string; values : list value }.

(** What a template literal makes of a built-in function of the engine. *)
Definition native_function (name : string) : string :=
  "function " +:+ name +:+ "() { [native code] }".

(** The members every plain object inherits from [Object.prototype], each
    with the text a template literal makes of it in Node: the built-in
    functions, [constructor] being the function [Object], and the accessor
    [__proto__], which yields [Object.prototype] itself. All of them are
    objects, hence truthy. *)
Definition Object_prototype (name : string) : option string :=
  if decide (name = "constructor") then Some (native_function "Object")
  else if decide (name = "__proto__") then Some "[object Object]"
  else if bool_decide (name ∈ ["__defineGetter__"; "__defineSetter__"; "hasOwnProperty";
                               "__lookupGetter__"; "__lookupSetter__"; "isPrototypeOf";
                               "propertyIsEnumerable"; "toString"; "valueOf";
                               "toLocaleString"])
  then Some (native_function name)
  else None.

(** [jsToSql[colName]]: the table's own entry when it has one, the
    inherited member otherwise, [undefined] when there is neither. *)
Definition read_property (jsToSql : gmap string string) (colName : string) : option string :=
  match jsToSql !! colName with
  | Some entry => Some entry
  | None => Object_prototype colName
  end.

(** The template literal of the [map] callback:
    [`"${jsToSql[colName] || colName}"=$${idx + 1}`]. *)
Definition col (jsToSql : gmap string string) (idx : nat) (colName : string) : string :=
  dquote +:+ or_else (read_property jsToSql colName) colName +:+ dquote
  +:+ "=$" +:+ pretty (idx + 1).

Definition sqlForPartialUpdate (dataToUpdate : list (string * value))
    (jsToSql : gmap string string) : jsError + clause :=
  let keys := Object_keys dataToUpdate in
  if decide (length keys = 0) then inl (BadRequestError (Msg "No data"))
  else
    let cols := imap (col jsToSql) keys in
    inr {| setCols := join ", " cols; values := Object_values dataToUpdate |}.

End Sql.

Import Sql.

(** ** models/company.js and the PATCH route of routes/companies.js *)

Section Company.

(** A row of the [companies] table as the driver returns it. *)
Variable row : Type.

(** [db.query(text, values)]: the rows of the result, or the rejection. *)
Variable db_query : string → list value → jsError + list row.

(** [jsonschema.validate(body, companyUpdateSchema).errors.map(e => e.stack)];
    [validator.valid] holds exactly when there is no error. *)
Variable validate_companyUpdate : list (string * value) → list string.

Definition nl : string := String "010"%char EmptyString.
Definition indent22 : string := "                      ".
Definition indent32 : string := "                                ".

Definition company_jsToSql : gmap string string :=
  {[ "numEmployees" := "num_employees"; "logoUrl" := "logo_url" ]}.

Definition company_update_sql (setCols handleVarIdx : string) : string :=
  "UPDATE companies" +:+ nl +:+
  indent22 +:+ "SET " +:+ setCols +:+ nl +:+
  indent22 +:+ "WHERE handle = " +:+ handleVarIdx +:+ nl +:+
  indent22 +:+ "RETURNING handle," +:+ nl +:+
  indent32 +:+ "name," +:+ nl +:+
  indent32 +:+ "description," +:+ nl +:+
  indent32 +:+ "num_employees AS " +:+ dquote +:+ "numEmployees" +:+ dquote +:+ "," +:+ nl +:+
  indent32 +:+ "logo_url AS " +:+ dquote +:+ "logoUrl" +:+ dquote.

(** [Company.update(handle, data)]; a [throw] of the builder or a rejection
    of the query leaves the function as it is, nothing catches it here. *)
Definition Company_update (handle : string) (data : list (string * value)) : jsError + row :=
  match sqlForPartialUpdate data company_jsToSql with
  | inl err => inl err
  | inr {| setCols := setCols; values := values |} =>
      let handleVarIdx := "$" +:+ pretty (length values + 1) in
      let querySql := company_update_sql setCols handleVarIdx in
      match db_query querySql (values ++ [VStr handle]) with
      | inl err => inl err
      | inr rows =>
          match rows !! 0 with
          | None => inl (NotFoundError ("No company: " +:+ handle))
          | Some company => inr company
          end
      end
  end.

(** What a route handler ends with: [res.json({ company })] or [next(err)]. *)
Inductive response : Type :=
  | Json (company : row)
  | NextErr (err : jsError).

(** The handler of [router.patch("/:handle", ensureAdmin, ...)]; [handle]
    is [req.params.handle], which the router binds from the path, and
    [body] is [req.body]. *)
Definition patch_company (handle : string) (body : list (string * value)) : response :=
  let attempt : jsError + row :=
    let errs := validate_companyUpdate body in
    if negb (bool_decide (errs = [])) then inl (BadRequestError (Msgs errs))
    else Company_update handle body in
  match attempt with
  | inr company => Json company
  | inl err => NextErr err
  end.

End Company.

Arguments Json {row} company.
Arguments NextErr {row} err.

(** ** String helpers of the middleware *)

Module JsString.

(** WhiteSpace and LineTerminator code units below 256: TAB, LF, VT, FF,
    CR, SP and NBSP. *)
Definition is_white_space (c : ascii) : bool :=
  match N_of_ascii c with
  | 9 | 10 | 11 | 12 | 13 | 32 | 160 => true
  | _ => false
  end%N.

Fixpoint trimStart (s : string) : string :=
  match s with
  | EmptyString => EmptyString
  | String c rest => if is_white_space c then trimStart rest else s
  end.

Fixpoint trimEnd (s : string) : string :=
  match s with
  | EmptyString => EmptyString
  | String c rest =>
      match trimEnd rest with
      | EmptyString => if is_white_space c then EmptyString else String c EmptyString
      | t => String c t
      end
  end.

(** [String.prototype.trim]. *)
Definition trim (s : string) : string := trimEnd (trimStart s).

(** [Some rest] when [s] is [p] followed by [rest]. *)
Fixpoint strip_prefix (p s : string) : option string :=
  match p, s with
  | EmptyString, _ => Some s
  | String a p', String b s' => if Ascii.eqb a b then strip_prefix p' s' else None
  | String _ _, EmptyString => None
  end.

(** [s.replace(/^[Bb]earer /, "")]: the pattern is anchored and not global,
    so it removes one match at the very start or nothing. *)
Definition replace_bearer (s : string) : string :=
  match s with
  | String c rest =>
      if Ascii.eqb c "B" || Ascii.eqb c "b" then
        match strip_prefix "earer " rest with
        | Some t => t
        | None => s
        end
      else s
  | EmptyString => s
  end.

End JsString.

Import JsString.

(** ** middleware/auth.js *)

(** The token payload: "this will include the username and isAdmin field". *)
Record payload : Type := Payload { username : string; isAdmin : bool }.

(** [res.locals]. *)
Record locals : Type := Locals { user : option payload }.

(** The parts of [req] the middleware reads; either object may be missing
    when a caller hands in a bare request. *)
Record request : Type := Request {
  headers : option (gmap string string);
  params : option (gmap string string)
}.

(** The call that ends a middleware: [next()] or [next(err)]. *)
Inductive next_call : Type :=
  | Next (err : option jsError).

(** Code that may throw and may assign to [res.locals]. *)
Definition M (A : Type) : Type := locals → (jsError + A) * locals.

Definition ret {A : Type} (a : A) : M A := λ l, (inr a, l).

Definition bind {A B : Type} (m : M A) (k : A → M B) : M B := λ l,
  match m l with
  | (inr a, l') => k a l'
  | (inl e, l') => (inl e, l')
  end.

Notation "'let*' x := m 'in' k" := (bind m (λ x, k))
  (at level 10, x name, m at level 100, k at level 200,
   format "'[v' 'let*'  x  :=  m  'in' '/' k ']'").

Definition throw {A : Type} (e : jsError) : M A := λ l, (inl e, l).

(** A call into code that does not touch [res.locals]. *)
Definition call {A : Type} (r : jsError + A) : M A := λ l, (r, l).

Definition get_user : M (option payload) := λ l, (inr (user l), l).

Definition set_user (p : payload) : M unit := λ _, (inr tt, Locals (Some p)).

(** [try { body } catch (err) { handler }]. *)
Definition try_catch {A : Type} (body : M A) (handler : jsError → M A) : M A := λ l,
  match body l with
  | (inl e, l') => handler e l'
  | (inr a, l') => (inr a, l')
  end.

(** [next()] and [next(err)], as the value the middleware returns. *)
Definition next : M next_call := ret (Next None).
Definition next_err (err : jsError) : M next_call := ret (Next (Some err)).

(** [a || b] on booleans: [b] is evaluated only when [a] is false. *)
Definition or_sc (a : bool) (b : M bool) : M bool := if a then ret true else b.

(** [req.params[k]]; the read faults when [req.params] is [undefined]. *)
Definition read_param (req : request) (k : string) : M (option string) :=
  match params req with
  | Some ps => ret (ps !! k)
  | None => throw TypeError
  end.

(** [o.isAdmin] where [o] may be [undefined]. *)
Definition read_isAdmin (o : option payload) : M bool :=
  match o with
  | Some p => ret (isAdmin p)
  | None => throw TypeError
  end.

(** ToBoolean of [res.locals.user]: an object is truthy, [undefined] is not. *)
Definition present (o : option payload) : bool :=
  match o with
  | Some _ => true
  | None => false
  end.

Section Middleware.

(** [SECRET_KEY] of [config.js]. *)
Variable SECRET_KEY : string.

(** [jwt.verify(token, secret)]: the decoded payload, or the error thrown. *)
Variable jwt_verify : string → string → jsError + payload.

Definition authenticateJWT (req : request) : M next_call :=
  try_catch
    (let authHeader : option string :=
       match headers req with
       | Some hs => hs !! "authorization"
       | None => None
       end in
     match authHeader with
     | Some h =>
         if truthy h then
           let token := trim (replace_bearer h) in
           let* p := call (jwt_verify token SECRET_KEY) in
           let* _ := set_user p in
           next
         else next
     | None => next
     end)
    (λ err, next).

Definition ensureLoggedIn (req : request) : M next_call :=
  try_catch
    (let* u := get_user in
     if negb (present u) then throw UnauthorizedError else next)
    (λ err, next_err err).

Definition ensureAdmin (req : request) : M next_call :=
  try_catch
    (let* u := get_user in
     let* c := or_sc (negb (present u))
                     (let* u' := get_user in
                      let* a := read_isAdmin u' in
                      ret (negb a)) in
     if c then throw UnauthorizedError else next)
    (λ err, next_err err).

Definition ensureCorrectUserOrAdmin (req : request) : M next_call :=
  try_catch
    (let* user := get_user in
     let* c := match user with
               | None => ret false
               | Some p =>
                   or_sc (isAdmin p)
                         (let* name := read_param req "username" in
                          ret (bool_decide (Some (username p) = name)))
               end in
     if negb c then throw UnauthorizedError else next)
    (λ err, next_err err).

End Middleware.

(** ** Objects, as the models read and change them *)

(** [o[k]] on an object given by its own properties. *)
Fixpoint prop (k : string) (o : list (string * value)) : option value :=
  match o with
  | [] => None
  | (k', v) :: rest => if decide (k' = k) then Some v else prop k rest
  end.

(** [o[k] = v]: a property that exists keeps its place, a new one goes last. *)
Fixpoint set_prop (k : string) (v : value) (o : list (string * value)) : list (string * value) :=
  match o with
  | [] => [(k, v)]
  | (k', v') :: rest => if decide (k' = k) then (k, v) :: rest else (k', v') :: set_prop k v rest
  end.

(** [delete o[k]]. *)
Definition delete_prop (k : string) (o : list (string * value)) : list (string * value) :=
  filter (λ kv, kv.1 ≠ k) o.

(** ToBoolean of a property read; a missing property reads as [undefined]. *)
Definition truthy_value (v : option value) : bool :=
  match v with
  | None => false
  | Some VNull => false
  | Some (VBool b) => b
  | Some (VNum n) => negb (n =? 0)%Z
  | Some (VStr s) => truthy s
  end.

(** ToString of a route parameter, which is a string or [undefined]. *)
Definition show_param (s : option string) : string :=
  match s with
  | Some s => s
  | None => "undefined"
  end.

(** What [User.authenticate] throws: an error of the driver or of bcrypt, or
    its own [UnauthorizedError] with a message. *)
Inductive authError : Type :=
  | Thrown (e : jsError)
  | UnauthorizedMessage (m : string).

(** The argument of [Company.create]; [handle] is a string, the other
    fields are whatever the body holds, [undefined] when left out. *)
Record newCompany : Type := NewCompany {
  nc_handle : string;
  nc_name : option value;
  nc_description : option value;
  nc_numEmployees : option value;
  nc_logoUrl : option value
}.

(** The argument of [User.register]. *)
Record newUser : Type := NewUser {
  nu_username : string;
  nu_password : option value;
  nu_firstName : option value;
  nu_lastName : option value;
  nu_email : option value;
  nu_isAdmin : option value
}.

(** One entry of [jobs] in the result of [Company.get]. *)
Record job : Type := Job {
  j_id : option value;
  j_title : option value;
  j_salary : option value;
  j_equity : option value;
  j_companyHandle : option value
}.

(** The result of [Company.get]. *)
Record companyWithJobs : Type := CompanyWithJobs {
  c_handle : option value;
  c_name : option value;
  c_description : option value;
  c_numEmployees : option value;
  c_logoUrl : option value;
  c_jobs : list job
}.

(** ** The statements of the models *)

(** The statement of [User.authenticate]. *)
Definition user_authenticate_sql : string :=
  "SELECT username," +:+ nl +:+
  "              password," +:+ nl +:+
  "              first_name AS " +:+ dquote +:+ "firstName" +:+ dquote +:+ "," +:+ nl +:+
  "              last_name AS " +:+ dquote +:+ "lastName" +:+ dquote +:+ "," +:+ nl +:+
  "              email," +:+ nl +:+
  "              is_admin AS " +:+ dquote +:+ "isAdmin" +:+ dquote +:+ nl +:+
  "       FROM users" +:+ nl +:+
  "       WHERE username = $1".

(** The duplicate check of [User.register]. *)
Definition user_duplicate_sql : string :=
  "SELECT username" +:+ nl +:+
  "       FROM users" +:+ nl +:+
  "       WHERE username = $1".

(** The insertion of [User.register]. *)
Definition user_insert_sql : string :=
  "INSERT INTO users" +:+ nl +:+
  "       (username," +:+ nl +:+
  "        password," +:+ nl +:+
  "        first_name," +:+ nl +:+
  "        last_name," +:+ nl +:+
  "        email," +:+ nl +:+
  "        is_admin)" +:+ nl +:+
  "       VALUES ($1, $2, $3, $4, $5, $6)" +:+ nl +:+
  "       RETURNING username, first_name AS " +:+ dquote +:+ "firstName" +:+ dquote +:+ ", last_name AS " +:+ dquote +:+ "lastName" +:+ dquote +:+ ", email, is_admin AS " +:+ dquote +:+ "isAdmin" +:+ dquote.

(** The statement of [User.update]. *)
Definition user_update_sql (setCols usernameVarIdx : string) : string :=
  "UPDATE users" +:+ nl +:+
  "                      SET " +:+ setCols +:+ nl +:+
  "                      WHERE username = " +:+ usernameVarIdx +:+ nl +:+
  "                      RETURNING username," +:+ nl +:+
  "                                first_name AS " +:+ dquote +:+ "firstName" +:+ dquote +:+ "," +:+ nl +:+
  "                                last_name AS " +:+ dquote +:+ "lastName" +:+ dquote +:+ "," +:+ nl +:+
  "                                email," +:+ nl +:+
  "                                is_admin AS " +:+ dquote +:+ "isAdmin" +:+ dquote.

(** The statement of [User.remove]. *)
Definition user_delete_sql : string :=
  "DELETE" +:+ nl +:+
  "       FROM users" +:+ nl +:+
  "       WHERE username = $1" +:+ nl +:+
  "       RETURNING username".

(** The three statements of [User.applyToJob]. *)
Definition apply_job_sql : string :=
  "SELECT id" +:+ nl +:+
  "       FROM jobs" +:+ nl +:+
  "       WHERE id = $1".

Definition apply_user_sql : string :=
  "SELECT username" +:+ nl +:+
  "       FROM users" +:+ nl +:+
  "       WHERE username = $1".

Definition apply_insert_sql : string :=
  "INSERT INTO applications (job_id, username)" +:+ nl +:+
  "       VALUES ($1, $2)".

(** The duplicate check of [Company.create]. *)
Definition company_duplicate_sql : string :=
  "SELECT handle" +:+ nl +:+
  "           FROM companies" +:+ nl +:+
  "           WHERE handle = $1".

(** The insertion of [Company.create]. *)
Definition company_insert_sql : string :=
  "INSERT INTO companies" +:+ nl +:+
  "           (handle, name, description, num_employees, logo_url)" +:+ nl +:+
  "           VALUES ($1, $2, $3, $4, $5)" +:+ nl +:+
  "           RETURNING handle, name, description, num_employees AS " +:+ dquote +:+ "numEmployees" +:+ dquote +:+ ", logo_url AS " +:+ dquote +:+ "logoUrl" +:+ dquote.

(** The statement of [Company.findAll]. *)
Definition company_find_all_sql : string :=
  "SELECT handle," +:+ nl +:+
  "                  name," +:+ nl +:+
  "                  description," +:+ nl +:+
  "                  num_employees AS " +:+ dquote +:+ "numEmployees" +:+ dquote +:+ "," +:+ nl +:+
  "                  logo_url AS " +:+ dquote +:+ "logoUrl" +:+ dquote +:+ nl +:+
  "           FROM companies" +:+ nl +:+
  "           ORDER BY name".

(** The statement of [Company.get]. *)
Definition company_get_sql : string :=
  "SELECT c.handle," +:+ nl +:+
  "                  c.name," +:+ nl +:+
  "                  c.description," +:+ nl +:+
  "                  c.num_employees AS " +:+ dquote +:+ "numEmployees" +:+ dquote +:+ "," +:+ nl +:+
  "                  c.logo_url AS " +:+ dquote +:+ "logoUrl" +:+ dquote +:+ "," +:+ nl +:+
  "                  j.id AS job_id," +:+ nl +:+
  "                  j.title AS job_title," +:+ nl +:+
  "                  j.salary AS job_salary," +:+ nl +:+
  "                  j.equity AS job_equity," +:+ nl +:+
  "                  j.company_handle AS job_companyHandle" +:+ nl +:+
  "           FROM companies c" +:+ nl +:+
  "           LEFT JOIN jobs j ON c.handle = j.company_handle" +:+ nl +:+
  "           WHERE c.handle = $1".

(** The statement of [Company.remove]. *)
Definition company_delete_sql : string :=
  "DELETE" +:+ nl +:+
  "           FROM companies" +:+ nl +:+
  "           WHERE handle = $1" +:+ nl +:+
  "           RETURNING handle".

(** ** models/user.js, models/company.js and their routes *)

Section Models.

(** Everything outside the process that a call can change or depend on: the
    database and the salt source of bcrypt. *)
Variable world : Type.

(** JavaScript numbers, with unary plus on a route or query parameter, the
    comparison [>] and ToString. *)
Variable jsnum : Type.
Variable to_number : option string → jsnum.
Variable num_gt : jsnum → jsnum → bool.
Variable number_to_string : jsnum → string.

(** A statement parameter: a body value or route parameter ([undefined] when
    missing), or a number made by unary plus. *)
Inductive param : Type :=
  | PVal (v : option value)
  | PNum (n : jsnum).

(** [db.query(text, params)]: the rows, or the rejection. *)
Variable db_query :
  string → list param → world → (jsError + list (list (string * value))) * world.

(** [BCRYPT_WORK_FACTOR] of [config.js], [bcrypt.hash] and [bcrypt.compare]. *)
Variable BCRYPT_WORK_FACTOR : nat.
Variable bcrypt_hash : option value → nat → world → (jsError + string) * world.
Variable bcrypt_compare : string → option value → jsError + bool.

(** [jsonschema.validate(body, userUpdateSchema).errors.map(e => e.stack)]
    and the same for the company search schema on [req.query]. *)
Variable validate_userUpdate : list (string * value) → list string.
Variable validate_companySearch : gmap string (string + jsnum) → list string.

(** Code that may throw an [E] and acts on the world. *)
Definition Db (E A : Type) : Type := world → (E + A) * world.

Definition db_ret {E A : Type} (a : A) : Db E A := λ w, (inr a, w).

Definition db_bind {E A B : Type} (m : Db E A) (k : A → Db E B) : Db E B := λ w,
  match m w with
  | (inr a, w') => k a w'
  | (inl e, w') => (inl e, w')
  end.

Definition db_throw {E A : Type} (e : E) : Db E A := λ w, (inl e, w).

(** A call that is pure but may throw. *)
Definition db_call {E A : Type} (r : E + A) : Db E A := λ w, (r, w).

(** An error of the driver or of bcrypt inside [User.authenticate]. *)
Definition rethrown {A : Type} (m : Db jsError A) : Db authError A := λ w,
  match m w with
  | (inr a, w') => (inr a, w')
  | (inl e, w') => (inl (Thrown e), w')
  end.

Notation "'let!' x := m 'in' k" := (db_bind m (λ x, k))
  (at level 10, x name, m at level 100, k at level 200,
   format "'[v' 'let!'  x  :=  m  'in' '/' k ']'").

(** *** models/user.js *)

Definition User_authenticate (username password : string)
    : Db authError (list (string * value)) :=
  let! rows := rethrown (db_query user_authenticate_sql [PVal (Some (VStr username))]) in
  match rows !! 0 with
  | Some user =>
      let! isValid := rethrown (db_call (bcrypt_compare password (prop "password" user))) in
      if isValid then db_ret (delete_prop "password" user)
      else db_throw (UnauthorizedMessage "Invalid username/password")
  | None => db_throw (UnauthorizedMessage "Invalid username/password")
  end.

(** The result is [result.rows[0]], [undefined] when the statement returned
    no row. *)
Definition User_register (data : newUser) : Db jsError (option (list (string * value))) :=
  let! duplicateCheck := db_query user_duplicate_sql [PVal (Some (VStr (nu_username data)))] in
  match duplicateCheck !! 0 with
  | Some _ =>
      db_throw (BadRequestError (Msg ("Duplicate username: " +:+ nu_username data)))
  | None =>
      let! hashedPassword := bcrypt_hash (nu_password data) BCRYPT_WORK_FACTOR in
      let! rows :=
        db_query user_insert_sql
          [PVal (Some (VStr (nu_username data)));
           PVal (Some (VStr hashedPassword));
           PVal (nu_firstName data);
           PVal (nu_lastName data);
           PVal (nu_email data);
           PVal (nu_isAdmin data)] in
      db_ret (rows !! 0)
  end.

Definition user_jsToSql : gmap string string :=
  {[ "firstName" := "first_name"; "lastName" := "last_name"; "isAdmin" := "is_admin" ]}.

Definition User_update (username : option string) (data : list (string * value))
    : Db jsError (list (string * value)) :=
  let! data :=
    if truthy_value (prop "password" data) then
      let! hashed := bcrypt_hash (prop "password" data) BCRYPT_WORK_FACTOR in
      db_ret (set_prop "password" (VStr hashed) data)
    else db_ret data in
  let! c := db_call (sqlForPartialUpdate data user_jsToSql) in
  let usernameVarIdx := "$" +:+ pretty (length (values c) + 1) in
  let querySql := user_update_sql (setCols c) usernameVarIdx in
  let! rows :=
    db_query querySql ((PVal ∘ Some <$> values c) ++ [PVal (VStr <$> username)]) in
  match rows !! 0 with
  | None => db_throw (NotFoundError ("No user: " +:+ show_param username))
  | Some user => db_ret (delete_prop "password" user)
  end.

Definition User_remove (username : option string) : Db jsError unit :=
  let! rows := db_query user_delete_sql [PVal (VStr <$> username)] in
  match rows !! 0 with
  | None => db_throw (NotFoundError ("No user: " +:+ show_param username))
  | Some _ => db_ret tt
  end.

(** An argument of [User.applyToJob]: a route parameter or a number. *)
Inductive arg : Type :=
  | AStr (s : option string)
  | ANum (n : jsnum).

Definition arg_param (a : arg) : param :=
  match a with
  | AStr s => PVal (VStr <$> s)
  | ANum n => PNum n
  end.

(** ToString of an argument inside a template literal. *)
Definition show_arg (a : arg) : string :=
  match a with
  | AStr s => show_param s
  | ANum n => number_to_string n
  end.

Definition User_applyToJob (jobId username : arg) : Db jsError arg :=
  let! preCheck := db_query apply_job_sql [arg_param jobId] in
  match preCheck !! 0 with
  | None => db_throw (NotFoundError ("No job: " +:+ show_arg jobId))
  | Some _ =>
      let! preCheck2 := db_query apply_user_sql [arg_param username] in
      match preCheck2 !! 0 with
      | None => db_throw (NotFoundError ("No username: " +:+ show_arg username))
      | Some _ =>
          let! _ := db_query apply_insert_sql [arg_param jobId; arg_param username] in
          db_ret jobId
      end
  end.

(** *** models/company.js *)

Definition Company_create (data : newCompany) : Db jsError (option (list (string * value))) :=
  let! duplicateCheck := db_query company_duplicate_sql [PVal (Some (VStr (nc_handle data)))] in
  match duplicateCheck !! 0 with
  | Some _ => db_throw (BadRequestError (Msg ("Duplicate company: " +:+ nc_handle data)))
  | None =>
      let! rows :=
        db_query company_insert_sql
          [PVal (Some (VStr (nc_handle data)));
           PVal (nc_name data);
           PVal (nc_description data);
           PVal (nc_numEmployees data);
           PVal (nc_logoUrl data)] in
      db_ret (rows !! 0)
  end.

Definition Company_findAll : Db jsError (list (list (string * value))) :=
  db_query company_find_all_sql [].

(** The callback of [filter]: [row.job_id !== null]. *)
Definition has_job (row : list (string * value)) : bool :=
  match prop "job_id" row with
  | Some VNull => false
  | _ => true
  end.

(** The callback of [map]. *)
Definition job_of_row (row : list (string * value)) : job :=
  {| j_id := prop "job_id" row;
     j_title := prop "job_title" row;
     j_salary := prop "job_salary" row;
     j_equity := prop "job_equity" row;
     j_companyHandle := prop "job_companyHandle" row |}.

Definition Company_get (handle : option string) : Db jsError companyWithJobs :=
  let! rows := db_query company_get_sql [PVal (VStr <$> handle)] in
  match rows with
  | [] => db_throw (NotFoundError ("No company: " +:+ show_param handle))
  | first :: _ =>
      let jobs := job_of_row <$> filter (λ row, has_job row = true) rows in
      db_ret {| c_handle := prop "handle" first;
                c_name := prop "name" first;
                c_description := prop "description" first;
                c_numEmployees := prop "numEmployees" first;
                c_logoUrl := prop "logoUrl" first;
                c_jobs := jobs |}
  end.

Definition Company_remove (handle : option string) : Db jsError unit :=
  let! rows := db_query company_delete_sql [PVal (VStr <$> handle)] in
  match rows !! 0 with
  | None => db_throw (NotFoundError ("No company: " +:+ show_param handle))
  | Some _ => db_ret tt
  end.

(** *** The routes *)

(** [try { ...; return res.json(body) } catch (err) { return next(err) }]. *)
Definition respond {B : Type} (body : Db jsError B) : world → response B * world := λ w,
  match body w with
  | (inr b, w') => (Json b, w')
  | (inl err, w') => (NextErr err, w')
  end.

(** [req.params[k]] inside a handler; the read faults when [req.params] is
    [undefined]. *)
Definition route_param {E : Type} (fault : E) (req : request) (k : string)
    : Db E (option string) :=
  match params req with
  | Some ps => db_ret (ps !! k)
  | None => db_throw fault
  end.

(** A route with one middleware before its handler: the router calls the
    handler when the middleware ends with [next()], and goes to the error
    handler with [err] when it ends with [next(err)] or throws [err]. *)
Definition guarded {B : Type} (gate : M next_call) (handler : world → response B * world)
    (l : locals) : world → response B * world := λ w,
  match gate l with
  | (inr (Next None), _) => handler w
  | (inr (Next (Some err)), _) => (NextErr err, w)
  | (inl err, _) => (NextErr err, w)
  end.

(** [router.patch("/:username", ensureCorrectUserOrAdmin, ...)] of
    routes/users.js; [body] is [req.body]. *)
Definition patch_user (req : request) (body : list (string * value))
    : locals → world → response (list (string * value)) * world :=
  guarded (ensureCorrectUserOrAdmin req)
    (respond
       (let errs := validate_userUpdate body in
        if negb (bool_decide (errs = [])) then db_throw (BadRequestError (Msgs errs))
        else
          let! username := route_param TypeError req "username" in
          User_update username body)).

(** [router.delete("/:username", ensureCorrectUserOrAdmin, ...)]; the body
    of the answer is [{ deleted: req.params.username }]. *)
Definition delete_user (req : request) : locals → world → response (option string) * world :=
  guarded (ensureCorrectUserOrAdmin req)
    (respond
       (let! username := route_param TypeError req "username" in
        let! _ := User_remove username in
        let! deleted := route_param TypeError req "username" in
        db_ret deleted)).

(** [router.post("/:username/jobs/:id", ensureCorrectUserOrAdmin, ...)]; the
    body of the answer is [{ applied: jobId }]. *)
Definition post_user_job (req : request) : locals → world → response jsnum * world :=
  guarded (ensureCorrectUserOrAdmin req)
    (respond
       (let! id := route_param TypeError req "id" in
        let jobId := to_number id in
        let! username := route_param TypeError req "username" in
        let! _ := User_applyToJob (AStr username) (ANum jobId) in
        db_ret jobId)).

(** [router.delete("/:handle", ensureAdmin, ...)] of routes/companies.js. *)
Definition delete_company (req : request) : locals → world → response (option string) * world :=
  guarded (ensureAdmin req)
    (respond
       (let! handle := route_param TypeError req "handle" in
        let! _ := Company_remove handle in
        let! deleted := route_param TypeError req "handle" in
        db_ret deleted)).

(** How the [async] handler of [router.get("/", ...)] ends: it answers, or
    its promise rejects because of a [throw] outside the [try]. *)
Inductive settled (B : Type) : Type :=
  | Answered (r : response B)
  | Rejected (err : jsError).

(** [q.k = +q.k] when [q.k !== undefined]. *)
Definition to_number_in_place (k : string) (q : gmap string (string + jsnum))
    : gmap string (string + jsnum) :=
  match q !! k with
  | Some (inl s) => <[ k := inr (to_number (Some s)) ]> q
  | Some (inr n) => q
  | None => q
  end.

(** [router.get("/", ...)] of routes/companies.js; [q] is [req.query], whose
    values arrive as strings. *)
Definition get_companies (q : gmap string (string + jsnum))
    : world → settled (list (list (string * value))) * world := λ w,
  let q := to_number_in_place "minEmployees" q in
  let q := to_number_in_place "maxEmployees" q in
  let too_wide :=
    match q !! "minEmployees", q !! "maxEmployees" with
    | Some (inr lo), Some (inr hi) => num_gt lo hi
    | _, _ => false
    end in
  if too_wide then
    (Rejected _ (BadRequestError (Msg "minEmployees cannot be greater than maxEmployees")), w)
  else
    let (r, w') :=
      respond
        (let errs := validate_companySearch q in
         if negb (bool_decide (errs = [])) then db_throw (BadRequestError (Msgs errs))
         else Company_findAll) w in
    (Answered _ r, w').

End Models.

Arguments Answered {B} r.
Arguments Rejected {B} err.
Arguments PVal {jsnum} v.
Arguments PNum {jsnum} n.
Arguments AStr {jsnum} s.
Arguments ANum {jsnum} n.
Arguments db_ret {world E A} a.
Arguments db_bind {world E A B} m k.
Arguments db_throw {world E A} e.
Arguments db_call {world E A} r.
Arguments respond {world B} body.
Arguments guarded {world B} gate handler l.
Arguments route_param {world E} fault req k.
Arguments User_authenticate {world jsnum} db_query bcrypt_compare username password.
Arguments User_register {world jsnum} db_query BCRYPT_WORK_FACTOR bcrypt_hash data.
Arguments User_update {world jsnum} db_query BCRYPT_WORK_FACTOR bcrypt_hash username data.
Arguments User_remove {world jsnum} db_query username.
Arguments User_applyToJob {world jsnum} number_to_string db_query jobId username.
Arguments Company_create {world jsnum} db_query data.
Arguments Company_findAll {world jsnum} db_query.
Arguments Company_get {world jsnum} db_query handle.
Arguments Company_remove {world jsnum} db_query handle.
Arguments patch_user {world jsnum} db_query BCRYPT_WORK_FACTOR bcrypt_hash validate_userUpdate
  req body l.
Arguments delete_user {world jsnum} db_query req l.
Arguments post_user_job {world jsnum} to_number number_to_string db_query req l.
Arguments delete_company {world jsnum} db_query req l.
Arguments get_companies {world jsnum} to_number num_gt db_query validate_companySearch q.


(** ** Vocabulary of the specification *)

(** One assignment fragment: the quoted column name, [=$] and the position. *)
Definition fragment (name : string) (position : nat) : string :=
  dquote +:+ name +:+ dquote +:+ "=$" +:+ pretty position.

(** Name resolution as the specification words it: the table entry when the
    key is in the table, the key itself when it is not. *)
Definition resolve_by_membership (nameMap : gmap string string) (key : string) : string :=
  match nameMap !! key with
  | Some name => name
  | None => key
  end.

(** The clause the specification describes for [updates] and [nameMap]. *)
Definition clause_by_membership (updates : list (string * value))
    (nameMap : gmap string string) : string :=
  join ", " (imap (λ i key, fragment (resolve_by_membership nameMap key) (i + 1)) updates.*1).

(** The inbound credential: [req.headers && req.headers.authorization]. *)
Definition credential (req : request) : option string :=
  match headers req with
  | Some hs => hs !! "authorization"
  | None => None
  end.

(** A middleware lets the request through when it ends with [next()]. *)
Definition proceeds (r : (jsError + next_call) * locals) : Prop :=
  r.1 = inr (Next None).

(** A middleware signals [err] when it ends with [next(err)]. *)
Definition signals (err : jsError) (r : (jsError + next_call) * locals) : Prop :=
  r.1 = inr (Next (Some err)).

(** Vocabulary for [trim]: strings of white space only, and strings that
    begin or end with white space. *)
Fixpoint all_white_space (s : string) : bool :=
  match s with
  | EmptyString => true
  | String c rest => is_white_space c && all_white_space rest
  end.

Definition head_is_space (s : string) : bool :=
  match s with
  | EmptyString => false
  | String c _ => is_white_space c
  end.

Fixpoint last_is_space (s : string) : bool :=
  match s with
  | EmptyString => false
  | String c EmptyString => is_white_space c
  | String _ rest => last_is_space rest
  end.

(** The values of an update once [User.update] has put the hash in the place
    of the password. *)
Definition with_hashed_password (hashed : string) (data : list (string * value)) : list value :=
  (λ kv, if decide (kv.1 = "password") then VStr hashed else kv.2) <$> data.

(** A driver for the worked cases: the world is the list of the statements
    sent so far, and [answer] gives the rows for a statement. *)
Definition recording_driver
    (answer : string → list (@param Z) → jsError + list (list (string * value)))
    : string → list (@param Z) → list (string * list (@param Z))
      → (jsError + list (list (string * value))) * list (string * list (@param Z)) :=
  λ text ps sent, (answer text ps, (sent ++ [(text, ps)])%list).

(** * Properties *)

(** ** The tests of helpers/sql.test.js, replayed on the model *)

Example sql_one_item :
  sqlForPartialUpdate [("f1", VStr "v1")] {[ "f1" := "f1"; "fF2" := "f2" ]}
  = inr (Clause (dquote +:+ "f1" +:+ dquote +:+ "=$1") [VStr "v1"]).
Proof. vm_compute. reflexivity. Qed.

Example sql_two_items :
  sqlForPartialUpdate [("f1", VStr "v1"); ("jsF2", VStr "v2")] {[ "jsF2" := "f2" ]}
  = inr (Clause (dquote +:+ "f1" +:+ dquote +:+ "=$1, " +:+ dquote +:+ "f2" +:+ dquote +:+ "=$2")
                [VStr "v1"; VStr "v2"]).
Proof. vm_compute. reflexivity. Qed.

Example sql_no_data :
  sqlForPartialUpdate [] {[ "jsF2" := "f2" ]} = inl (BadRequestError (Msg "No data")).
Proof. reflexivity. Qed.

Example sql_fallback :
  sqlForPartialUpdate [("f1", VStr "v1"); ("f2", VStr "v2")] {[ "jsF1" := "f1" ]}
  = inr (Clause (dquote +:+ "f1" +:+ dquote +:+ "=$1, " +:+ dquote +:+ "f2" +:+ dquote +:+ "=$2")
                [VStr "v1"; VStr "v2"]).
Proof. vm_compute. reflexivity. Qed.

(** ** Helper lemmas on the builder *)

Lemma sql_nonempty dataToUpdate jsToSql :
  dataToUpdate ≠ [] →
  sqlForPartialUpdate dataToUpdate jsToSql
  = inr (Clause (join ", " (imap (col jsToSql) (Object_keys dataToUpdate)))
                (Object_values dataToUpdate)).
Proof.
  intros Hne. unfold sqlForPartialUpdate.
  destruct (decide _) as [Hlen | _]; [| reflexivity].
  unfold Object_keys in Hlen. rewrite length_fmap in Hlen.
  destruct dataToUpdate; [congruence | discriminate].
Qed.

Lemma sql_empty jsToSql :
  sqlForPartialUpdate [] jsToSql = inl (BadRequestError (Msg "No data")).
Proof. reflexivity. Qed.

Lemma keys_lookup {V : Type} (o : list (string * V)) i k v :
  o !! i = Some (k, v) → Object_keys o !! i = Some k ∧ Object_values o !! i = Some v.
Proof.
  intros H. unfold Object_keys, Object_values.
  rewrite !list_lookup_fmap, H. split; reflexivity.
Qed.

Lemma or_else_truthy s d : truthy s = true → or_else (Some s) d = s.
Proof. intros H. simpl. rewrite H. reflexivity. Qed.


Lemma truthy_nonempty s : truthy s = true ↔ s ≠ EmptyString.
Proof. destruct s; simpl; split; congruence. Qed.

Lemma col_fragment jsToSql i key :
  col jsToSql i key = fragment (or_else (read_property jsToSql key) key) (i + 1).
Proof. reflexivity. Qed.

Lemma Object_prototype_truthy (name text : string) :
  Object_prototype name = Some text → truthy text = true.
Proof.
  unfold Object_prototype, native_function.
  destruct (decide (name = "constructor")); [intros Ht; simplify_eq; reflexivity |].
  destruct (decide (name = "__proto__")); [intros Ht; simplify_eq; reflexivity |].
  destruct (bool_decide _); intros Ht; simplify_eq. reflexivity.
Qed.

(** How [jsToSql[key] || key] comes out, case by case. *)
Lemma resolved_cases (jsToSql : gmap string string) (key : string) :
  let name := or_else (read_property jsToSql key) key in
  (jsToSql !! key = Some name ∧ name ≠ EmptyString)
  ∨ (name = key ∧ jsToSql !! key = Some EmptyString)
  ∨ (name = key ∧ jsToSql !! key = None ∧ Object_prototype key = None)
  ∨ (jsToSql !! key = None ∧ Object_prototype key = Some name).
Proof.
  unfold read_property. destruct (jsToSql !! key) as [entry |] eqn:Hown; simpl.
  - destruct entry as [| c rest]; simpl; [right; left; eauto | left; split; [reflexivity | discriminate]].
  - destruct (Object_prototype key) as [text |] eqn:Hproto; simpl.
    + rewrite (Object_prototype_truthy _ _ Hproto). eauto 6.
    + eauto 6.
Qed.

Lemma cols_lookup (updates : list (string * value)) jsToSql i key v :
  updates !! i = Some (key, v) →
  imap (col jsToSql) (Object_keys updates) !! i = Some (col jsToSql i key).
Proof.
  intros H. rewrite list_lookup_imap.
  destruct (keys_lookup updates i key v H) as [-> _]. reflexivity.
Qed.

Lemma cols_length (updates : list (string * value)) jsToSql :
  length (imap (col jsToSql) (Object_keys updates)) = length updates.
Proof. unfold Object_keys. rewrite length_imap, length_fmap. reflexivity. Qed.

(** ** The builder *)

(** C1, as stated, fails: with the table [{f1: ""}] the key [f1] is in the
    table, so the claim resolves it to the empty name, while the code falls
    back to [f1]. *)
Lemma C1_counterexample :
  let updates := [("f1", VStr "v1")] in
  let nameMap : gmap string string := {[ "f1" := EmptyString ]} in
  updates ≠ []
  ∧ sqlForPartialUpdate updates nameMap
    = inr (Clause (dquote +:+ "f1" +:+ dquote +:+ "=$1") [VStr "v1"])
  ∧ clause_by_membership updates nameMap = dquote +:+ dquote +:+ "=$1"
  ∧ sqlForPartialUpdate updates nameMap
    ≠ inr (Clause (clause_by_membership updates nameMap) updates.*2).
Proof.
  intros updates nameMap.
  split; [discriminate |].
  split; [vm_compute; reflexivity |].
  split; [vm_compute; reflexivity |].
  vm_compute. intros H. discriminate H.
Qed.

(** C1 (amended): for every non-empty update mapping and every table, the
    builder returns the [", "]-joined fragments ["<name>"=$<i>], one per key
    in iteration order with [i] the 1-based position, and the values in the
    same order; the name is the table entry when the key has a non-empty
    entry, and the key itself when its entry is empty, or when it has no
    entry and is not the name of a member inherited from
    [Object.prototype]. *)
Theorem build_clause_shape (updates : list (string * value)) (nameMap : gmap string string) :
  updates ≠ [] →
  ∃ cols : list string,
    sqlForPartialUpdate updates nameMap = inr (Clause (join ", " cols) updates.*2)
    ∧ length cols = length updates
    ∧ ∀ i key v, updates !! i = Some (key, v) →
        ∃ name, cols !! i = Some (fragment name (i + 1))
          ∧ updates.*2 !! i = Some v
          ∧ (∀ n, nameMap !! key = Some n → n ≠ EmptyString → name = n)
          ∧ (nameMap !! key = Some EmptyString → name = key)
          ∧ (nameMap !! key = None → Object_prototype key = None → name = key).
Proof.
  intros Hne. exists (imap (col nameMap) (Object_keys updates)).
  split; [apply sql_nonempty, Hne |].
  split; [apply cols_length |].
  intros i key v Hi. exists (or_else (read_property nameMap key) key).
  split; [rewrite (cols_lookup _ _ _ _ _ Hi); reflexivity |].
  split; [apply (keys_lookup updates i key v Hi) |].
  unfold read_property. repeat split.
  - intros n -> Hn. apply or_else_truthy, truthy_nonempty, Hn.
  - intros ->. reflexivity.
  - intros -> ->. reflexivity.
Qed.

Lemma build_clause_shape_witness :
  ∃ cols : list string,
    sqlForPartialUpdate [("f1", VStr "v1"); ("jsF2", VStr "v2")] {[ "jsF2" := "f2" ]}
    = inr (Clause (join ", " cols) [VStr "v1"; VStr "v2"])
    ∧ length cols = 2.
Proof.
  destruct (build_clause_shape [("f1", VStr "v1"); ("jsF2", VStr "v2")] {[ "jsF2" := "f2" ]})
    as (cols & H1 & H2 & _); [discriminate |].
  exists cols. split; [exact H1 | exact H2].
Defined.



(** C3: for every table, the builder applied to the empty update mapping
    throws [BadRequestError("No data")] and returns no clause and no values;
    [Company.update] lets that error through without querying, and the PATCH
    handler hands the very same error to [next] once validation passes. *)
Theorem empty_update_rejected (nameMap : gmap string string) :
  sqlForPartialUpdate [] nameMap = inl (BadRequestError (Msg "No data"))
  ∧ (∀ c : clause, sqlForPartialUpdate [] nameMap ≠ inr c)
  ∧ (∀ (row : Type) (db_query : string → list value → jsError + list row) (handle : string),
       Company_update row db_query handle [] = inl (BadRequestError (Msg "No data")))
  ∧ (∀ (row : Type) (db_query : string → list value → jsError + list row)
       (validate : list (string * value) → list string) (handle : string),
       validate [] = [] →
       patch_company row db_query validate handle []
       = NextErr (BadRequestError (Msg "No data"))).
Proof.
  split; [reflexivity |].
  split; [intros c H; discriminate H |].
  split; [reflexivity |].
  intros row db_query validate handle Hvalid.
  unfold patch_company. rewrite Hvalid. reflexivity.
Qed.

Lemma empty_update_rejected_witness :
  patch_company unit (λ _ _, inr [tt]) (λ _, []) "c1" []
  = NextErr (BadRequestError (Msg "No data")).
Proof.
  apply (proj2 (proj2 (proj2 (empty_update_rejected ∅)))). reflexivity.
Defined.

(** C6: the clause depends on the keys and the table only. Two non-empty
    update mappings with the same key sequence give the same clause whatever
    their values are, and the values come back verbatim, in order. *)
Theorem clause_ignores_values (u1 u2 : list (string * value)) (nameMap : gmap string string) :
  u1 ≠ [] →
  Object_keys u1 = Object_keys u2 →
  ∃ c1 c2 : clause,
    sqlForPartialUpdate u1 nameMap = inr c1
    ∧ sqlForPartialUpdate u2 nameMap = inr c2
    ∧ setCols c1 = setCols c2
    ∧ values c1 = u1.*2
    ∧ values c2 = u2.*2.
Proof.
  intros Hne Hkeys.
  assert (Hne2 : u2 ≠ []).
  { intros ->. destruct u1; [congruence | discriminate Hkeys]. }
  rewrite (sql_nonempty u1 nameMap Hne), (sql_nonempty u2 nameMap Hne2).
  eexists _, _. split; [reflexivity |]. split; [reflexivity |].
  simpl. rewrite Hkeys. repeat split.
Qed.

Lemma clause_ignores_values_witness :
  ∃ c1 c2 : clause,
    sqlForPartialUpdate [("f1", VStr "v1"); ("f2", VNum 7)] {[ "f2" := "col2" ]} = inr c1
    ∧ sqlForPartialUpdate [("f1", VStr "x'; DROP TABLE users; --"); ("f2", VNull)]
        {[ "f2" := "col2" ]} = inr c2
    ∧ setCols c1 = setCols c2.
Proof.
  destruct (clause_ignores_values
              [("f1", VStr "v1"); ("f2", VNum 7)]
              [("f1", VStr "x'; DROP TABLE users; --"); ("f2", VNull)]
              {[ "f2" := "col2" ]})
    as (c1 & c2 & H1 & H2 & H3 & _); [discriminate | reflexivity |].
  exists c1, c2. repeat split; assumption.
Defined.

(** The engine's own members shine through the table: a key that has no
    entry but names a member of [Object.prototype] is resolved to the text
    of that member, not to the key. *)
Example inherited_member_interpolated :
  sqlForPartialUpdate [("constructor", VStr "v1")] ∅
  = inr (Clause (dquote +:+ "function Object() { [native code] }" +:+ dquote +:+ "=$1")
                [VStr "v1"]).
Proof. vm_compute. reflexivity. Qed.




(** ** The middleware *)

Ltac run_middleware :=
  unfold ensureLoggedIn, ensureAdmin, ensureCorrectUserOrAdmin, authenticateJWT,
    try_catch, bind, ret, throw, call, get_user, set_user, next, next_err, or_sc,
    read_param, read_isAdmin, present; simpl.

Lemma try_catch_throw (e : jsError) (l : locals) :
  try_catch (throw e) next_err l = (inr (Next (Some e)), l).
Proof. reflexivity. Qed.

Lemma ensureCorrectUserOrAdmin_cases (req : request) (l : locals) :
  ensureCorrectUserOrAdmin req l =
  match user l with
  | None => (inr (Next (Some UnauthorizedError)), l)
  | Some p =>
      if isAdmin p then (inr (Next None), l)
      else match params req with
           | None => (inr (Next (Some TypeError)), l)
           | Some ps =>
               if bool_decide (Some (username p) = ps !! "username")
               then (inr (Next None), l)
               else (inr (Next (Some UnauthorizedError)), l)
           end
  end.
Proof.
  destruct l as [[p |]]; [| reflexivity].
  run_middleware. destruct (isAdmin p); [reflexivity |].
  destruct (params req) as [ps |]; [| reflexivity].
  simpl. destruct (bool_decide _); reflexivity.
Qed.

Lemma ensureAdmin_cases (req : request) (l : locals) :
  ensureAdmin req l =
  match user l with
  | Some p => if isAdmin p then (inr (Next None), l)
              else (inr (Next (Some UnauthorizedError)), l)
  | None => (inr (Next (Some UnauthorizedError)), l)
  end.
Proof.
  destruct l as [[p |]]; [| reflexivity].
  run_middleware. destruct (isAdmin p); reflexivity.
Qed.

(** The short circuit matters: with a non-admin identity and no [req.params]
    the comparison is reached and its property read faults. *)
Example self_check_reads_params :
  ensureCorrectUserOrAdmin (Request None None) (Locals (Some (Payload "u1" false)))
  = (inr (Next (Some TypeError)), Locals (Some (Payload "u1" false))).
Proof. reflexivity. Qed.

(** C4: on an identity context and route parameters, the self-or-admin gate
    lets the request through exactly when the identity is present and either
    its admin flag is set or its username equals [req.params.username]; a
    matching username suffices with the flag off, the flag suffices whatever
    the parameters are, and an absent identity is refused whatever else the
    request holds. *)
Theorem self_or_admin_gate (hs : option (gmap string string)) (ps : gmap string string)
    (l : locals) :
  (proceeds (ensureCorrectUserOrAdmin (Request hs (Some ps)) l)
     ↔ ∃ u, user l = Some u ∧ (isAdmin u = true ∨ ps !! "username" = Some (username u)))
  ∧ (¬ proceeds (ensureCorrectUserOrAdmin (Request hs (Some ps)) l)
     → ensureCorrectUserOrAdmin (Request hs (Some ps)) l
       = (inr (Next (Some UnauthorizedError)), l))
  ∧ (∀ u, user l = Some u → isAdmin u = false → ps !! "username" = Some (username u) →
       ensureCorrectUserOrAdmin (Request hs (Some ps)) l = (inr (Next None), l))
  ∧ (∀ u req, user l = Some u → isAdmin u = true →
       ensureCorrectUserOrAdmin req l = (inr (Next None), l))
  ∧ (∀ req, user l = None →
       ensureCorrectUserOrAdmin req l = (inr (Next (Some UnauthorizedError)), l)).
Proof.
  unfold proceeds.
  repeat split.
  - rewrite ensureCorrectUserOrAdmin_cases. simpl.
    destruct (user l) as [p |]; [| discriminate].
    intros H. exists p. split; [reflexivity |].
    destruct (isAdmin p); [left; reflexivity | right].
    case_bool_decide as Heq; [congruence | discriminate H].
  - intros (u & Hu & Hor). rewrite ensureCorrectUserOrAdmin_cases, Hu. simpl.
    destruct Hor as [-> | Hname]; [reflexivity |].
    destruct (isAdmin u); [reflexivity |].
    rewrite bool_decide_true by congruence. reflexivity.
  - rewrite ensureCorrectUserOrAdmin_cases. simpl.
    destruct (user l) as [p |]; [| reflexivity].
    destruct (isAdmin p); [intros Hn; exfalso; apply Hn; reflexivity |].
    case_bool_decide; [intros Hn; exfalso; apply Hn; reflexivity | reflexivity].
  - intros u Hu Hadmin Hname. rewrite ensureCorrectUserOrAdmin_cases, Hu, Hadmin. simpl.
    rewrite bool_decide_true by congruence. reflexivity.
  - intros u req Hu Hadmin. rewrite ensureCorrectUserOrAdmin_cases, Hu, Hadmin. reflexivity.
  - intros req Hu. rewrite ensureCorrectUserOrAdmin_cases, Hu. reflexivity.
Qed.

Lemma self_or_admin_gate_witness :
  ensureCorrectUserOrAdmin (Request None (Some {[ "username" := "u1" ]}))
                           (Locals (Some (Payload "u1" false)))
  = (inr (Next None), Locals (Some (Payload "u1" false))).
Proof.
  apply (proj1 (proj2 (proj2
           (self_or_admin_gate None {[ "username" := "u1" ]}
              (Locals (Some (Payload "u1" false)))))) (Payload "u1" false));
    reflexivity.
Defined.

(** C7: the admin gate signals [UnauthorizedError] exactly when it is not
    the case that the identity is present with its admin flag set; with a
    present admin identity the request proceeds without an error; the error
    handed to [next] is the one thrown, nothing else and nothing changed,
    and [res.locals] is left as it was. *)
Theorem admin_gate (req : request) (l : locals) :
  (signals UnauthorizedError (ensureAdmin req l)
     ↔ ¬ ∃ u, user l = Some u ∧ isAdmin u = true)
  ∧ ((∃ u, user l = Some u ∧ isAdmin u = true) → ensureAdmin req l = (inr (Next None), l))
  ∧ (∀ err, signals err (ensureAdmin req l) → err = UnauthorizedError)
  ∧ (ensureAdmin req l).2 = l
  ∧ (∀ err, ensureAdmin req l ≠ (inl err, l)).
Proof.
  unfold signals. rewrite ensureAdmin_cases.
  destruct l as [[[name [|]] |]]; simpl.
  - split; [split; [discriminate | intros Hn; elim Hn; eauto] |].
    split; [reflexivity |].
    split; [intros err Herr; discriminate Herr |].
    split; [reflexivity | discriminate].
  - split; [split; [intros _ (u & Hu & Ha); simplify_eq/= | reflexivity] |].
    split; [intros (u & Hu & Ha); simplify_eq/= |].
    split; [intros err Herr; congruence |].
    split; [reflexivity | discriminate].
  - split; [split; [intros _ (u & Hu & _); discriminate Hu | reflexivity] |].
    split; [intros (u & Hu & _); discriminate Hu |].
    split; [intros err Herr; congruence |].
    split; [reflexivity | discriminate].
Qed.

Lemma admin_gate_witness :
  ensureAdmin (Request None None) (Locals (Some (Payload "admin" true)))
  = (inr (Next None), Locals (Some (Payload "admin" true))).
Proof.
  apply (proj1 (proj2 (admin_gate (Request None None) (Locals (Some (Payload "admin" true)))))).
  exists (Payload "admin" true). split; reflexivity.
Defined.

(** C8: with no identity the self-or-admin gate still returns, and refuses
    with [UnauthorizedError], for every request: whatever [req.params] holds,
    when it has no [username] entry, and even when [req.params] is missing
    altogether, so the parameter is not read to decide this case. *)
Theorem absent_identity_short_circuits (req : request) :
  ensureCorrectUserOrAdmin req (Locals None)
  = (inr (Next (Some UnauthorizedError)), Locals None)
  ∧ (∀ hs, ensureCorrectUserOrAdmin (Request hs (Some ∅)) (Locals None)
           = (inr (Next (Some UnauthorizedError)), Locals None))
  ∧ (∀ hs, ensureCorrectUserOrAdmin (Request hs None) (Locals None)
           = (inr (Next (Some UnauthorizedError)), Locals None))
  ∧ (∀ req', ensureCorrectUserOrAdmin req' (Locals None)
             = ensureCorrectUserOrAdmin req (Locals None)).
Proof. repeat split. Qed.

(** ** Token extraction *)

Lemma app_String c (a t : string) : String c a +:+ t = String c (a +:+ t).
Proof. reflexivity. Qed.

Lemma app_Empty (t : string) : EmptyString +:+ t = t.
Proof. reflexivity. Qed.

Ltac norm_app := rewrite ?app_String, ?app_Empty.

Lemma trimStart_spec (s : string) :
  ∃ a, s = a +:+ trimStart s
       ∧ all_white_space a = true
       ∧ head_is_space (trimStart s) = false.
Proof.
  induction s as [| c rest (a & Heq & Ha & Hhead)].
  - exists EmptyString. repeat split.
  - simpl. destruct (is_white_space c) eqn:Hc.
    + exists (String c a). norm_app. simpl. rewrite Hc, Ha.
      split; [f_equal; exact Heq |]. split; [reflexivity | exact Hhead].
    + exists EmptyString. norm_app. simpl. repeat split. exact Hc.
Qed.

Lemma trimEnd_spec (s : string) :
  ∃ b, s = trimEnd s +:+ b
       ∧ all_white_space b = true
       ∧ last_is_space (trimEnd s) = false.
Proof.
  induction s as [| c rest (b & Heq & Hb & Hlast)].
  - exists EmptyString. repeat split.
  - simpl. destruct (trimEnd rest) as [| x t] eqn:Ht.
    + rewrite app_Empty in Heq. subst b. destruct (is_white_space c) eqn:Hc.
      * exists (String c rest). norm_app. simpl. rewrite Hc, Hb. repeat split.
      * exists rest. norm_app. simpl. rewrite Hc. repeat split. exact Hb.
    + exists b. norm_app. rewrite app_String in Heq.
      split; [f_equal; exact Heq |]. split; [exact Hb | exact Hlast].
Qed.

Lemma trimEnd_head (s : string) :
  head_is_space s = false → head_is_space (trimEnd s) = false.
Proof.
  destruct s as [| c rest]; [reflexivity |]. simpl. intros Hc.
  destruct (trimEnd rest); [rewrite Hc |]; simpl; try exact Hc.
Qed.

(** [trim] removes a run of white space at each end and nothing else. *)
Lemma trim_spec (s : string) :
  ∃ a b, s = a +:+ trim s +:+ b
         ∧ all_white_space a = true
         ∧ all_white_space b = true
         ∧ head_is_space (trim s) = false
         ∧ last_is_space (trim s) = false.
Proof.
  destruct (trimStart_spec s) as (a & Hs & Ha & Hhead).
  destruct (trimEnd_spec (trimStart s)) as (b & Hm & Hb & Hlast).
  exists a, b. unfold trim.
  split; [rewrite <- Hm; exact Hs |].
  split; [exact Ha |]. split; [exact Hb |].
  split; [apply trimEnd_head, Hhead | exact Hlast].
Qed.

Lemma strip_prefix_app (p t : string) : strip_prefix p (p +:+ t) = Some t.
Proof.
  induction p as [| c p IH]; [reflexivity |].
  norm_app. simpl. rewrite Ascii.eqb_refl. exact IH.
Qed.

Lemma strip_prefix_Some (p s t : string) : strip_prefix p s = Some t → s = p +:+ t.
Proof.
  revert s. induction p as [| c p IH]; intros s H.
  - simpl in H. norm_app. congruence.
  - destruct s as [| d s]; [discriminate H |]. simpl in H.
    destruct (Ascii.eqb c d) eqn:Hcd; [| discriminate H].
    apply Ascii.eqb_eq in Hcd. subst d. norm_app. f_equal. apply IH, H.
Qed.

Lemma replace_bearer_other (s : string) :
  (∀ t, s ≠ "Bearer " +:+ t) → (∀ t, s ≠ "bearer " +:+ t) → replace_bearer s = s.
Proof.
  intros HB Hb. destruct s as [| c rest]; [reflexivity |]. unfold replace_bearer.
  destruct (Ascii.eqb c "B" || Ascii.eqb c "b") eqn:Hc; [| reflexivity].
  destruct (strip_prefix "earer " rest) as [t |] eqn:Ht; [| reflexivity].
  apply strip_prefix_Some in Ht. subst rest. exfalso.
  apply orb_true_iff in Hc as [Hc | Hc]; apply Ascii.eqb_eq in Hc; subst c.
  - apply (HB t). reflexivity.
  - apply (Hb t). reflexivity.
Qed.

Lemma replace_bearer_Bearer (t : string) : replace_bearer ("Bearer " +:+ t) = t.
Proof. reflexivity. Qed.

Lemma replace_bearer_bearer (t : string) : replace_bearer ("bearer " +:+ t) = t.
Proof. reflexivity. Qed.

Lemma authenticateJWT_credential SECRET_KEY jwt_verify (req : request) (l : locals) :
  authenticateJWT SECRET_KEY jwt_verify req l =
  match credential req with
  | Some h =>
      if truthy h then
        match jwt_verify (trim (replace_bearer h)) SECRET_KEY with
        | inr p => (inr (Next None), Locals (Some p))
        | inl _ => (inr (Next None), l)
        end
      else (inr (Next None), l)
  | None => (inr (Next None), l)
  end.
Proof.
  unfold authenticateJWT, credential.
  destruct (match headers req with Some hs => hs !! "authorization" | None => None end)
    as [h |]; [| reflexivity].
  destruct (truthy h); [| reflexivity].
  run_middleware. destruct (jwt_verify _ _); reflexivity.
Qed.

(** ** Identity resolution *)

(** C5: for every request, every secret and every verifier,
    [authenticateJWT] returns by calling [next()] with no error: it never
    throws and never passes an error on. With no credential, or when
    verification throws whatever the error is, [res.locals] is left as it
    was; when verification returns claims, [res.locals.user] is exactly
    those claims. *)
Theorem identity_resolution (SECRET_KEY : string)
    (jwt_verify : string → string → jsError + payload) (req : request) (l : locals) :
  (∃ l', authenticateJWT SECRET_KEY jwt_verify req l = (inr (Next None), l'))
  ∧ (credential req = None ∨ credential req = Some EmptyString →
     authenticateJWT SECRET_KEY jwt_verify req l = (inr (Next None), l))
  ∧ (∀ h err, credential req = Some h →
     jwt_verify (trim (replace_bearer h)) SECRET_KEY = inl err →
     authenticateJWT SECRET_KEY jwt_verify req l = (inr (Next None), l))
  ∧ (∀ h claims, credential req = Some h → h ≠ EmptyString →
     jwt_verify (trim (replace_bearer h)) SECRET_KEY = inr claims →
     authenticateJWT SECRET_KEY jwt_verify req l = (inr (Next None), Locals (Some claims))).
Proof.
  rewrite authenticateJWT_credential.
  split; [| split; [| split]].
  - destruct (credential req) as [h |]; [| eauto].
    destruct (truthy h); [| eauto].
    destruct (jwt_verify _ _); eauto.
  - intros [-> | ->]; reflexivity.
  - intros h err -> Herr. rewrite Herr. destruct (truthy h); reflexivity.
  - intros h claims -> Hh Hok. rewrite Hok.
    apply truthy_nonempty in Hh. rewrite Hh. reflexivity.
Qed.

(** A verifier for the examples: one token is good, one has expired, and
    everything else is rejected. *)
Lemma identity_resolution_witness :
  let verify (token secret : string) : jsError + payload :=
    if decide (token = "good.token" ∧ secret = "secret") then inr (Payload "u1" false)
    else if decide (token = "old.token") then inl TokenExpiredError
    else inl (JsonWebTokenError "invalid signature") in
  authenticateJWT "secret" verify
    (Request (Some {[ "authorization" := "Bearer good.token" ]}) None) (Locals None)
  = (inr (Next None), Locals (Some (Payload "u1" false)))
  ∧ authenticateJWT "secret" verify
      (Request (Some {[ "authorization" := "Bearer old.token" ]}) None) (Locals None)
    = (inr (Next None), Locals None)
  ∧ authenticateJWT "secret" verify (Request (Some ∅) None) (Locals None)
    = (inr (Next None), Locals None).
Proof.
  intros verify. split; [| split].
  - apply (proj2 (proj2 (proj2 (identity_resolution "secret" verify
             (Request (Some {[ "authorization" := "Bearer good.token" ]}) None) (Locals None))))
             "Bearer good.token" (Payload "u1" false));
      [reflexivity | discriminate | reflexivity].
  - apply (proj1 (proj2 (proj2 (identity_resolution "secret" verify
             (Request (Some {[ "authorization" := "Bearer old.token" ]}) None) (Locals None))))
             "Bearer old.token" TokenExpiredError);
      reflexivity.
  - apply (proj1 (proj2 (identity_resolution "secret" verify
             (Request (Some ∅) None) (Locals None)))).
    left. reflexivity.
Defined.

(** C10: before verification the header loses one leading ["Bearer "] or
    ["bearer "] and then its surrounding white space. Only the first letter
    may vary in case, a second prefix stays, and a header that starts with
    neither is only trimmed; so a raw token is treated like the same token
    behind a prefix. The token [authenticateJWT] has verified is that
    string and no other: for a non-empty header [h] the outcome is decided
    by the verifier at [trim (replace_bearer h)], whose claims are stored
    when it accepts. *)
Theorem bearer_prefix_stripped_once :
  (∀ t, trim (replace_bearer ("Bearer " +:+ t)) = trim t)
  ∧ (∀ t, trim (replace_bearer ("bearer " +:+ t)) = trim t)
  ∧ (∀ t, replace_bearer ("Bearer " +:+ ("Bearer " +:+ t)) = "Bearer " +:+ t)
  ∧ (∀ s, (∀ t, s ≠ "Bearer " +:+ t) → (∀ t, s ≠ "bearer " +:+ t) → replace_bearer s = s)
  ∧ replace_bearer "BEARER abc" = "BEARER abc"
  ∧ (∀ s, ∃ a b, replace_bearer s = a +:+ trim (replace_bearer s) +:+ b
                 ∧ all_white_space a = true ∧ all_white_space b = true
                 ∧ head_is_space (trim (replace_bearer s)) = false
                 ∧ last_is_space (trim (replace_bearer s)) = false)
  ∧ (∀ SECRET_KEY jwt_verify hs ps l t,
       t ≠ EmptyString → replace_bearer t = t →
       authenticateJWT SECRET_KEY jwt_verify
         (Request (Some (<[ "authorization" := "Bearer " +:+ t ]> hs)) ps) l
       = authenticateJWT SECRET_KEY jwt_verify
           (Request (Some (<[ "authorization" := t ]> hs)) ps) l)
  ∧ (∀ SECRET_KEY jwt_verify req l h,
       credential req = Some h → h ≠ EmptyString →
       authenticateJWT SECRET_KEY jwt_verify req l
       = match jwt_verify (trim (replace_bearer h)) SECRET_KEY with
         | inr claims => (inr (Next None), Locals (Some claims))
         | inl _ => (inr (Next None), l)
         end)
  ∧ (∀ SECRET_KEY jwt_verify hs ps l t claims,
       jwt_verify (trim t) SECRET_KEY = inr claims →
       authenticateJWT SECRET_KEY jwt_verify
         (Request (Some (<[ "authorization" := "Bearer " +:+ t ]> hs)) ps) l
       = (inr (Next None), Locals (Some claims))
       ∧ authenticateJWT SECRET_KEY jwt_verify
           (Request (Some (<[ "authorization" := "bearer " +:+ t ]> hs)) ps) l
         = (inr (Next None), Locals (Some claims)))
  ∧ (∀ SECRET_KEY jwt_verify hs ps l t claims,
       t ≠ EmptyString → replace_bearer t = t →
       jwt_verify (trim t) SECRET_KEY = inr claims →
       authenticateJWT SECRET_KEY jwt_verify
         (Request (Some (<[ "authorization" := t ]> hs)) ps) l
       = (inr (Next None), Locals (Some claims)))
  ∧ (∀ SECRET_KEY jwt_verify hs ps l t claims,
       jwt_verify (trim ("BEARER " +:+ t)) SECRET_KEY = inr claims →
       authenticateJWT SECRET_KEY jwt_verify
         (Request (Some (<[ "authorization" := "BEARER " +:+ t ]> hs)) ps) l
       = (inr (Next None), Locals (Some claims))).
Proof.
  split; [intros t; reflexivity |].
  split; [intros t; reflexivity |].
  split; [intros t; reflexivity |].
  split; [exact replace_bearer_other |].
  split; [reflexivity |].
  split; [intros s; apply trim_spec |].
  split.
  { intros SECRET_KEY jwt_verify hs ps l t Ht Hraw.
    rewrite !authenticateJWT_credential. unfold credential. simpl.
    rewrite !lookup_insert_eq. rewrite replace_bearer_Bearer, Hraw.
    apply truthy_nonempty in Ht. rewrite Ht. reflexivity. }
  split.
  { intros SECRET_KEY jwt_verify req l h Hh Hne.
    rewrite authenticateJWT_credential, Hh.
    apply truthy_nonempty in Hne. rewrite Hne.
    destruct (jwt_verify _ _); reflexivity. }
  split.
  { intros SECRET_KEY jwt_verify hs ps l t claims Hok.
    rewrite !authenticateJWT_credential. unfold credential. simpl.
    rewrite !lookup_insert_eq, replace_bearer_Bearer, replace_bearer_bearer, Hok.
    split; reflexivity. }
  split.
  { intros SECRET_KEY jwt_verify hs ps l t claims Ht Hraw Hok.
    rewrite authenticateJWT_credential. unfold credential. simpl.
    rewrite lookup_insert_eq, Hraw, Hok.
    apply truthy_nonempty in Ht. rewrite Ht. reflexivity. }
  intros SECRET_KEY jwt_verify hs ps l t claims Hok.
  rewrite authenticateJWT_credential. unfold credential. simpl.
  rewrite lookup_insert_eq.
  change (replace_bearer ("BEARER " +:+ t)) with ("BEARER " +:+ t).
  rewrite Hok. reflexivity.
Qed.

Lemma bearer_prefix_stripped_once_witness :
  let verify (token secret : string) : jsError + payload :=
    if decide (token = "good.token") then inr (Payload "u1" false)
    else inl (JsonWebTokenError "invalid signature") in
  authenticateJWT "secret" verify
    (Request (Some (<[ "authorization" := "Bearer " +:+ "good.token" ]> ∅)) None) (Locals None)
  = authenticateJWT "secret" verify
      (Request (Some (<[ "authorization" := "good.token" ]> ∅)) None) (Locals None)
  ∧ replace_bearer "Authorization: x" = "Authorization: x"
  ∧ authenticateJWT "secret" verify
      (Request (Some (<[ "authorization" := "bearer " +:+ " good.token " ]> ∅)) None)
      (Locals None)
    = (inr (Next None), Locals (Some (Payload "u1" false)))
  ∧ authenticateJWT "secret" verify
      (Request (Some (<[ "authorization" := "good.token" ]> ∅)) None) (Locals None)
    = (inr (Next None), Locals (Some (Payload "u1" false))).
Proof.
  intros verify. split; [| split; [| split]].
  - apply (proj1 (proj2 (proj2 (proj2 (proj2 (proj2 (proj2 bearer_prefix_stripped_once))))))
             "secret" verify ∅ None (Locals None) "good.token");
      [discriminate | reflexivity].
  - apply (proj1 (proj2 (proj2 (proj2 bearer_prefix_stripped_once))) "Authorization: x");
      intros t; discriminate.
  - apply (proj1 (proj2 (proj2 (proj2 (proj2 (proj2 (proj2 (proj2 (proj2
             bearer_prefix_stripped_once))))))))
             "secret" verify ∅ None (Locals None) " good.token " (Payload "u1" false)).
    reflexivity.
  - apply (proj1 (proj2 (proj2 (proj2 (proj2 (proj2 (proj2 (proj2 (proj2 (proj2
             bearer_prefix_stripped_once)))))))))
             "secret" verify ∅ None (Locals None) "good.token" (Payload "u1" false));
      [discriminate | reflexivity | reflexivity].
Defined.

(** ** Worked cases of the middleware *)

Example trim_example :
  trim (String "009"%char "  a b " +:+ String "160"%char (String "010"%char EmptyString)) = "a b".
Proof. reflexivity. Qed.

Example logged_in_required :
  ensureLoggedIn (Request None None) (Locals None)
  = (inr (Next (Some UnauthorizedError)), Locals None)
  ∧ ensureLoggedIn (Request None None) (Locals (Some (Payload "u1" false)))
    = (inr (Next None), Locals (Some (Payload "u1" false))).
Proof. split; reflexivity. Qed.

Example admin_required :
  ensureAdmin (Request None None) (Locals (Some (Payload "u1" false)))
  = (inr (Next (Some UnauthorizedError)), Locals (Some (Payload "u1" false))).
Proof. reflexivity. Qed.

Example wrong_user_refused :
  ensureCorrectUserOrAdmin (Request None (Some {[ "username" := "u2" ]}))
                           (Locals (Some (Payload "u1" false)))
  = (inr (Next (Some UnauthorizedError)), Locals (Some (Payload "u1" false))).
Proof. reflexivity. Qed.

(** ** Worked cases of [Company.update] *)

(** A driver that echoes the statement and its parameters as the one row. *)
Example company_update_query :
  Company_update (string * list value) (λ text vals, inr [(text, vals)]) "c1"
    [("name", VStr "New"); ("numEmployees", VNum 10)]
  = inr (company_update_sql
           (dquote +:+ "name" +:+ dquote +:+ "=$1, "
            +:+ dquote +:+ "num_employees" +:+ dquote +:+ "=$2") "$3",
         [VStr "New"; VNum 10; VStr "c1"]).
Proof. vm_compute. reflexivity. Qed.

Example company_update_missing :
  Company_update unit (λ _ _, inr []) "nope" [("name", VStr "New")]
  = inl (NotFoundError "No company: nope").
Proof. vm_compute. reflexivity. Qed.

Example patch_company_invalid_body :
  patch_company unit (λ _ _, inr [tt]) (λ _, ["instance.name is not of a type(s) string"])
    "c1" [("name", VNum 1)]
  = NextErr (BadRequestError (Msgs ["instance.name is not of a type(s) string"])).
Proof. reflexivity. Qed.


(** * Further properties of the modelled code *)

(** ** The gates of middleware/auth.js *)

Lemma ensureLoggedIn_cases (req : request) (l : locals) :
  ensureLoggedIn req l =
  match user l with
  | Some _ => (inr (Next None), l)
  | None => (inr (Next (Some UnauthorizedError)), l)
  end.
Proof. destruct l as [[p |]]; reflexivity. Qed.

(** X1: [ensureLoggedIn] lets the request through exactly when
    [res.locals.user] is set and hands [UnauthorizedError] to [next]
    otherwise; it reads nothing of the request and leaves [res.locals] as
    it was. *)
Theorem logged_in_gate (req : request) (l : locals) :
  (proceeds (ensureLoggedIn req l) ↔ is_Some (user l))
  ∧ (signals UnauthorizedError (ensureLoggedIn req l) ↔ user l = None)
  ∧ (ensureLoggedIn req l).2 = l
  ∧ (∀ req', ensureLoggedIn req' l = ensureLoggedIn req l).
Proof.
  unfold proceeds, signals. rewrite ensureLoggedIn_cases.
  destruct (user l) as [p |] eqn:Hu; simpl.
  - split; [split; [eauto | reflexivity] |].
    split; [split; discriminate |].
    split; [reflexivity |].
    intros req'. rewrite ensureLoggedIn_cases, Hu. reflexivity.
  - split; [split; [discriminate | intros [p Hp]; discriminate Hp] |].
    split; [split; reflexivity |].
    split; [reflexivity |].
    intros req'. rewrite ensureLoggedIn_cases, Hu. reflexivity.
Qed.

Lemma logged_in_gate_witness :
  proceeds (ensureLoggedIn (Request None None) (Locals (Some (Payload "u1" false)))).
Proof.
  apply (proj1 (logged_in_gate (Request None None) (Locals (Some (Payload "u1" false))))).
  simpl. eauto.
Defined.

(** X2: the three gates are nested. Whatever passes [ensureAdmin] passes
    [ensureCorrectUserOrAdmin] on the same request, and whatever passes
    [ensureCorrectUserOrAdmin] passes [ensureLoggedIn]. *)
Theorem gates_nested (req : request) (l : locals) :
  (proceeds (ensureAdmin req l) → proceeds (ensureCorrectUserOrAdmin req l))
  ∧ (proceeds (ensureCorrectUserOrAdmin req l) → proceeds (ensureLoggedIn req l)).
Proof.
  unfold proceeds.
  rewrite ensureAdmin_cases, ensureCorrectUserOrAdmin_cases, ensureLoggedIn_cases.
  destruct (user l) as [p |]; simpl.
  - split; [| reflexivity].
    destruct (isAdmin p); [reflexivity | discriminate].
  - split; discriminate.
Qed.

Lemma gates_nested_witness :
  proceeds (ensureCorrectUserOrAdmin (Request None None) (Locals (Some (Payload "root" true))))
  ∧ proceeds (ensureLoggedIn (Request None None) (Locals (Some (Payload "root" true)))).
Proof.
  pose proof (gates_nested (Request None None) (Locals (Some (Payload "root" true))))
    as [Hadmin Hself].
  assert (H : proceeds (ensureCorrectUserOrAdmin (Request None None)
                          (Locals (Some (Payload "root" true)))))
    by (apply Hadmin; reflexivity).
  split; [exact H | apply Hself, H].
Defined.

(** X3: [ensureCorrectUserOrAdmin] always ends in a call of [next] and never
    changes [res.locals]. The only errors it passes on are
    [UnauthorizedError] and, when [req.params] itself is missing, the
    engine's [TypeError]. A user who is not an admin is refused when the
    route has no [username] parameter. *)
Theorem self_or_admin_gate_outcomes (req : request) (l : locals) :
  (ensureCorrectUserOrAdmin req l).2 = l
  ∧ (∃ o, (ensureCorrectUserOrAdmin req l).1 = inr (Next o)
          ∧ (o = None ∨ o = Some UnauthorizedError
             ∨ (o = Some TypeError ∧ params req = None)))
  ∧ (∀ u ps, user l = Some u → isAdmin u = false →
       params req = Some ps → ps !! "username" = None →
       signals UnauthorizedError (ensureCorrectUserOrAdmin req l)).
Proof.
  unfold signals. rewrite ensureCorrectUserOrAdmin_cases.
  destruct (user l) as [p |] eqn:Hu.
  - destruct (isAdmin p) eqn:Hp; simpl.
    + split; [reflexivity |]. split; [eauto |].
      intros u ps Hu' Ha. simplify_eq/=. congruence.
    + destruct (params req) as [ps |] eqn:Hps.
      * case_bool_decide as Heq; simpl.
        -- split; [reflexivity |]. split; [eauto |].
           intros u ps' Hu' _ Hps' Hnone. simplify_eq/=. congruence.
        -- split; [reflexivity |]. split; [eauto |]. reflexivity.
      * simpl. split; [reflexivity |]. split; [eauto 6 |].
        intros u ps _ _ Hps'. discriminate Hps'.
  - simpl. split; [reflexivity |]. split; [eauto |].
    intros u ps Hu'. discriminate Hu'.
Qed.

Lemma self_or_admin_gate_outcomes_witness :
  signals UnauthorizedError
    (ensureCorrectUserOrAdmin (Request None (Some ∅)) (Locals (Some (Payload "u1" false)))).
Proof.
  apply (proj2 (proj2 (self_or_admin_gate_outcomes (Request None (Some ∅))
                         (Locals (Some (Payload "u1" false)))))
           (Payload "u1" false) ∅); reflexivity.
Defined.

(** ** [authenticateJWT] followed by a gate *)

(** X4: running [authenticateJWT] a second time on the same request changes
    nothing: the outcome and [res.locals] are those of the first run. *)
Theorem authenticateJWT_idempotent (SECRET_KEY : string)
    (jwt_verify : string → string → jsError + payload) (req : request) (l : locals) :
  authenticateJWT SECRET_KEY jwt_verify req (authenticateJWT SECRET_KEY jwt_verify req l).2
  = authenticateJWT SECRET_KEY jwt_verify req l.
Proof.
  rewrite !authenticateJWT_credential.
  destruct (credential req) as [h |]; [| reflexivity].
  destruct (truthy h); [| reflexivity].
  destruct (jwt_verify _ _); reflexivity.
Qed.

(** X5: on a fresh [res.locals], once [authenticateJWT] has run,
    [ensureLoggedIn] lets the request through exactly when the request
    carries a non-empty authorization header whose token verifies, and
    [ensureAdmin] exactly when in addition the verified claims have
    [isAdmin] set. *)
Theorem authenticated_then_gated (SECRET_KEY : string)
    (jwt_verify : string → string → jsError + payload) (req : request) :
  let l := (authenticateJWT SECRET_KEY jwt_verify req (Locals None)).2 in
  (proceeds (ensureLoggedIn req l)
     ↔ ∃ h claims, credential req = Some h ∧ h ≠ EmptyString
         ∧ jwt_verify (trim (replace_bearer h)) SECRET_KEY = inr claims)
  ∧ (proceeds (ensureAdmin req l)
     ↔ ∃ h claims, credential req = Some h ∧ h ≠ EmptyString
         ∧ jwt_verify (trim (replace_bearer h)) SECRET_KEY = inr claims
         ∧ isAdmin claims = true).
Proof.
  unfold proceeds. simpl.
  rewrite authenticateJWT_credential, ensureLoggedIn_cases, ensureAdmin_cases.
  destruct (credential req) as [h |]; simpl.
  2: { split; (split; [intros H; discriminate H | intros (h & c & Hh & Hr); discriminate Hh]). }
  destruct (truthy h) eqn:Ht; simpl.
  2: { assert (h = EmptyString) as -> by (destruct h; [reflexivity | discriminate Ht]).
       split; (split; [intros H; discriminate H
                      | intros (h & c & Hh & Hne & Hr); congruence]). }
  apply truthy_nonempty in Ht.
  destruct (jwt_verify (trim (replace_bearer h)) SECRET_KEY) as [e | c] eqn:Hv; simpl.
  - split; split; try (intros H; discriminate H).
    + intros (h' & c & Hh & Hne & Hv'). congruence.
    + intros (h' & c & Hh & Hne & Hv' & Hc). congruence.
  - split; split.
    + intros Hp. exists h, c. eauto.
    + reflexivity.
    + destruct (isAdmin c) eqn:Hc; [| intros H; discriminate H]. intros Hp. exists h, c. eauto.
    + intros (h' & c' & Hh & Hne & Hv' & Hc).
      assert (c' = c) as -> by congruence. rewrite Hc. reflexivity.
Qed.

Lemma authenticated_then_gated_witness :
  let verify (token secret : string) : jsError + payload :=
    if decide (token = "admin.token") then inr (Payload "root" true)
    else inl (JsonWebTokenError "invalid signature") in
  let req := Request (Some {[ "authorization" := "Bearer admin.token" ]}) None in
  proceeds (ensureAdmin req (authenticateJWT "secret" verify req (Locals None)).2).
Proof.
  intros verify req.
  apply (proj2 (proj2 (authenticated_then_gated "secret" verify req))).
  exists "Bearer admin.token", (Payload "root" true).
  split; [reflexivity |]. split; [discriminate |]. split; reflexivity.
Defined.

(** ** More on the builder *)

Lemma append_assoc (a b c : string) : (a +:+ b) +:+ c = a +:+ (b +:+ c).
Proof. induction a as [| x a IH]; [reflexivity |]. norm_app. f_equal. exact IH. Qed.

Lemma join_snoc (sep x : string) (l : list string) :
  l ≠ [] → join sep (l ++ [x]) = join sep l +:+ sep +:+ x.
Proof.
  induction l as [| a l IH]; [congruence |]. intros _.
  destruct l as [| b l]; [reflexivity |].
  change (join sep ((a :: b :: l) ++ [x])) with (a +:+ sep +:+ join sep ((b :: l) ++ [x])).
  rewrite IH by discriminate.
  change (join sep (a :: b :: l)) with (a +:+ sep +:+ join sep (b :: l)).
  rewrite !append_assoc. reflexivity.
Qed.

(** X6: the only way the builder fails is the empty update: an error from
    [sqlForPartialUpdate] means that the update had no key, and the error is
    [BadRequestError("No data")]. *)
Theorem builder_fails_only_on_empty (dataToUpdate : list (string * value))
    (jsToSql : gmap string string) (err : jsError) :
  sqlForPartialUpdate dataToUpdate jsToSql = inl err →
  dataToUpdate = [] ∧ err = BadRequestError (Msg "No data").
Proof.
  destruct dataToUpdate as [| kv rest].
  - rewrite sql_empty. intros H. split; congruence.
  - rewrite sql_nonempty by discriminate. discriminate.
Qed.

Lemma builder_fails_only_on_empty_witness :
  ([] : list (string * value)) = [] ∧ BadRequestError (Msg "No data") = BadRequestError (Msg "No data").
Proof.
  apply (builder_fails_only_on_empty [] ∅ (BadRequestError (Msg "No data"))). reflexivity.
Defined.

(** X7: when an update enumerates the properties of a non-empty update
    followed by one more property with a fresh key, the builder returns
    the clause of the shorter update, then [", "] and one fragment for the
    new key, numbered one past the last, and the values of the shorter
    update followed by the new value; the fragments and values already
    there stay as they are. *)
Theorem builder_appends (dataToUpdate : list (string * value)) (jsToSql : gmap string string)
    (c : clause) (key : string) (v : value) :
  key ∉ Object_keys dataToUpdate →
  sqlForPartialUpdate dataToUpdate jsToSql = inr c →
  ∃ name : string,
    sqlForPartialUpdate (dataToUpdate ++ [(key, v)]) jsToSql
    = inr (Clause (setCols c +:+ ", " +:+ dquote +:+ name +:+ dquote +:+ "=$"
                   +:+ pretty (length dataToUpdate + 1))
                  (values c ++ [v]))
    ∧ ((jsToSql !! key = Some name ∧ name ≠ EmptyString)
       ∨ (name = key ∧ jsToSql !! key = Some EmptyString)
       ∨ (name = key ∧ jsToSql !! key = None ∧ Object_prototype key = None)
       ∨ (jsToSql !! key = None ∧ Object_prototype key = Some name)).
Proof.
  intros _ Hc. exists (or_else (read_property jsToSql key) key).
  split; [| apply resolved_cases].
  assert (Hne : dataToUpdate ≠ []).
  { intros ->. rewrite sql_empty in Hc. discriminate Hc. }
  rewrite (sql_nonempty _ _ Hne) in Hc. injection Hc as <-.
  rewrite sql_nonempty by (destruct dataToUpdate; discriminate).
  unfold Object_keys, Object_values. rewrite !fmap_app. simpl.
  rewrite imap_app. simpl. rewrite join_snoc.
  - rewrite length_fmap, Nat.add_0_r. reflexivity.
  - intros Himap. apply (f_equal length) in Himap.
    rewrite length_imap, length_fmap in Himap. destruct dataToUpdate; [congruence | discriminate].
Qed.

Lemma builder_appends_witness :
  ∃ name : string,
    sqlForPartialUpdate ([("f1", VStr "v1")] ++ [("jsF2", VNum 2)]) {[ "jsF2" := "f2" ]}
    = inr (Clause ((dquote +:+ "f1" +:+ dquote +:+ "=$1") +:+ ", " +:+ dquote +:+ name
                   +:+ dquote +:+ "=$" +:+ pretty (1 + 1))
                  [VStr "v1"; VNum 2]).
Proof.
  destruct (builder_appends [("f1", VStr "v1")] {[ "jsF2" := "f2" ]}
              (Clause (dquote +:+ "f1" +:+ dquote +:+ "=$1") [VStr "v1"]) "jsF2" (VNum 2))
    as (name & Hrun & _).
  - intros Hin. apply list_elem_of_singleton in Hin. discriminate Hin.
  - vm_compute. reflexivity.
  - exists name. exact Hrun.
Defined.

(** X8: only the table entries of the keys being updated matter: two
    tables that agree on every key of the update give the same result. *)
Theorem builder_reads_only_update_keys (dataToUpdate : list (string * value))
    (jsToSql1 jsToSql2 : gmap string string) :
  (∀ key, key ∈ Object_keys dataToUpdate → jsToSql1 !! key = jsToSql2 !! key) →
  sqlForPartialUpdate dataToUpdate jsToSql1 = sqlForPartialUpdate dataToUpdate jsToSql2.
Proof.
  intros Hagree. unfold sqlForPartialUpdate.
  destruct (decide _); [reflexivity |].
  do 3 f_equal. apply imap_ext. intros i key Hi.
  unfold col, read_property. rewrite (Hagree key); [reflexivity |].
  apply list_elem_of_lookup. eauto.
Qed.

Lemma builder_reads_only_update_keys_witness :
  sqlForPartialUpdate [("f1", VStr "v1")] {[ "jsF1" := "f1" ]}
  = sqlForPartialUpdate [("f1", VStr "v1")] ∅.
Proof.
  apply (builder_reads_only_update_keys [("f1", VStr "v1")] {[ "jsF1" := "f1" ]} ∅).
  intros key Hkey. apply list_elem_of_singleton in Hkey. subst key. reflexivity.
Defined.

(** ** [Company.update] on a non-empty update *)

(** X9: for a non-empty update, [Company.update] sends one statement whose
    parameters are the values of the update in order followed by the
    handle, and whose WHERE placeholder is the position of the handle among
    them. A rejection of the driver comes back unchanged, an empty result
    is [NotFoundError], and otherwise the first row is returned. *)
Theorem company_update_binds_handle_last (row : Type)
    (db_query : string → list value → jsError + list row)
    (handle : string) (data : list (string * value)) :
  data ≠ [] →
  ∃ (setCols : string) (params : list value),
    sqlForPartialUpdate data company_jsToSql = inr (Clause setCols data.*2)
    ∧ params = (data.*2 ++ [VStr handle])%list
    ∧ params !! length data = Some (VStr handle)
    ∧ length params = length data + 1
    ∧ Company_update row db_query handle data
      = match db_query (company_update_sql setCols ("$" +:+ pretty (length params))) params with
        | inl err => inl err
        | inr [] => inl (NotFoundError ("No company: " +:+ handle))
        | inr (company :: _) => inr company
        end.
Proof.
  intros Hne. eexists _, _.
  split; [apply (sql_nonempty data company_jsToSql Hne) |].
  split; [reflexivity |].
  split; [rewrite lookup_app_r, length_fmap, Nat.sub_diag by (rewrite length_fmap; lia);
          reflexivity |].
  split; [rewrite length_app, length_fmap; reflexivity |].
  unfold Company_update. rewrite (sql_nonempty data company_jsToSql Hne).
  unfold Object_values. rewrite length_app, !length_fmap. simpl.
  destruct (db_query _ _) as [err | [| company rest]]; reflexivity.
Qed.

Lemma company_update_binds_handle_last_witness :
  ∃ (setCols : string) (params : list value),
    params = [VNum 10; VStr "c1"]
    ∧ Company_update unit (λ _ _, inr []) "c1" [("numEmployees", VNum 10)]
      = inl (NotFoundError ("No company: " +:+ "c1")).
Proof.
  destruct (company_update_binds_handle_last unit (λ _ _, inr []) "c1"
              [("numEmployees", VNum 10)])
    as (setCols & params & _ & Hparams & _ & _ & Hrun); [discriminate |].
  exists setCols, params. split; [exact Hparams | exact Hrun].
Defined.


(** ** Objects *)

Lemma prop_delete_prop (k : string) (o : list (string * value)) :
  prop k (delete_prop k o) = None.
Proof.
  unfold delete_prop. induction o as [| [k' v] o IH]; [reflexivity |].
  rewrite filter_cons. simpl. destruct (decide (k' ≠ k)) as [Hne | Heq]; [| exact IH].
  simpl. destruct (decide (k' = k)); [contradiction | exact IH].
Qed.

Lemma prop_is_Some (k : string) (o : list (string * value)) :
  is_Some (prop k o) ↔ k ∈ o.*1.
Proof.
  induction o as [| [k' v] o IH]; simpl.
  - split; [intros [x Hx]; discriminate Hx | intros H; inversion H].
  - destruct (decide (k' = k)) as [-> | Hne].
    + split; [intros _; left | eauto].
    + rewrite IH. split; [intros H; right; exact H |].
      intros H. apply elem_of_cons in H as [-> | H]; [contradiction | exact H].
Qed.

Lemma truthy_value_is_Some (v : option value) : truthy_value v = true → is_Some v.
Proof. destruct v; [eauto | discriminate]. Qed.

Lemma set_prop_keys (k : string) (v : value) (o : list (string * value)) :
  k ∈ o.*1 → (set_prop k v o).*1 = o.*1.
Proof.
  induction o as [| [k' v'] o IH]; simpl; [intros H; inversion H |].
  destruct (decide (k' = k)) as [-> | Hne]; [reflexivity |].
  intros H. apply elem_of_cons in H as [-> | H]; [contradiction |].
  simpl. f_equal. apply IH, H.
Qed.

Lemma set_prop_values (k : string) (v : value) (o : list (string * value)) :
  NoDup o.*1 → k ∈ o.*1 →
  (set_prop k v o).*2 = (λ kv, if decide (kv.1 = k) then v else kv.2) <$> o.
Proof.
  induction o as [| [k' v'] o IH]; simpl; [intros _ H; inversion H |].
  intros Hnd Hin. apply NoDup_cons in Hnd as [Hk' Hnd].
  destruct (decide (k' = k)) as [-> | Hne]; simpl.
  - f_equal. clear IH Hin. induction o as [| [k2 v2] o IH]; [reflexivity |].
    simpl in *. apply not_elem_of_cons in Hk' as [Hk2 Hk'].
    apply NoDup_cons in Hnd as [_ Hnd].
    destruct (decide (k2 = k)); [congruence |]. f_equal. apply IH; assumption.
  - f_equal. apply elem_of_cons in Hin as [-> | Hin]; [contradiction |].
    apply IH; assumption.
Qed.

Section ModelFacts.

Context {world jsnum : Type}.
Context (to_number : option string → jsnum) (num_gt : jsnum → jsnum → bool)
        (number_to_string : jsnum → string).
Context (db_query :
  string → list (@param jsnum) → world → (jsError + list (list (string * value))) * world).
Context (BCRYPT_WORK_FACTOR : nat)
        (bcrypt_hash : option value → nat → world → (jsError + string) * world)
        (bcrypt_compare : string → option value → jsError + bool).
Context (validate_userUpdate : list (string * value) → list string)
        (validate_companySearch : gmap string (string + jsnum) → list string).

(** ** [User.update] *)

(** What [User.update] makes of the answer of the driver. *)
Lemma User_update_unhashed (username : option string) (data : list (string * value))
    (c : clause) (w : world) :
  truthy_value (prop "password" data) = false →
  sqlForPartialUpdate data user_jsToSql = inr c →
  User_update db_query BCRYPT_WORK_FACTOR bcrypt_hash username data w
  = match db_query (user_update_sql (setCols c) ("$" +:+ pretty (length (values c) + 1)))
            ((PVal ∘ Some <$> values c) ++ [PVal (VStr <$> username)]) w with
    | (inl err, w') => (inl err, w')
    | (inr [], w') => (inl (NotFoundError ("No user: " +:+ show_param username)), w')
    | (inr (user :: _), w') => (inr (delete_prop "password" user), w')
    end.
Proof.
  intros Hfalsy Hc. unfold User_update, db_bind, db_ret, db_call, db_throw.
  rewrite Hfalsy, Hc.
  destruct (db_query _ _ w) as [[err | [| user rest]] w']; reflexivity.
Qed.

Lemma User_update_hashed (username : option string) (data : list (string * value))
    (hashed : string) (c : clause) (w w1 : world) :
  truthy_value (prop "password" data) = true →
  bcrypt_hash (prop "password" data) BCRYPT_WORK_FACTOR w = (inr hashed, w1) →
  sqlForPartialUpdate (set_prop "password" (VStr hashed) data) user_jsToSql = inr c →
  User_update db_query BCRYPT_WORK_FACTOR bcrypt_hash username data w
  = match db_query (user_update_sql (setCols c) ("$" +:+ pretty (length (values c) + 1)))
            ((PVal ∘ Some <$> values c) ++ [PVal (VStr <$> username)]) w1 with
    | (inl err, w') => (inl err, w')
    | (inr [], w') => (inl (NotFoundError ("No user: " +:+ show_param username)), w')
    | (inr (user :: _), w') => (inr (delete_prop "password" user), w')
    end.
Proof.
  intros Htruthy Hhash Hc. unfold User_update, db_bind, db_ret, db_call, db_throw.
  rewrite Htruthy, Hhash, Hc.
  destruct (db_query _ _ w1) as [[err | [| user rest]] w']; reflexivity.
Qed.

(** X10: when the body carries a truthy [password], [User.update] first has
    bcrypt hash it and then sends one statement. Its SET clause is the one
    built from the keys of the body, and its parameters are the values of
    the body in order with the hash in the place of the password, followed
    by the username. *)
Theorem user_update_sends_hash (username : option string) (data : list (string * value))
    (hashed : string) (w w1 : world) :
  NoDup data.*1 →
  truthy_value (prop "password" data) = true →
  bcrypt_hash (prop "password" data) BCRYPT_WORK_FACTOR w = (inr hashed, w1) →
  ∃ c : clause,
    sqlForPartialUpdate data user_jsToSql = inr c
    ∧ User_update db_query BCRYPT_WORK_FACTOR bcrypt_hash username data w
      = match db_query (user_update_sql (setCols c) ("$" +:+ pretty (length data + 1)))
              ((PVal ∘ Some <$> with_hashed_password hashed data)
               ++ [PVal (VStr <$> username)]) w1 with
        | (inl err, w') => (inl err, w')
        | (inr [], w') => (inl (NotFoundError ("No user: " +:+ show_param username)), w')
        | (inr (user :: _), w') => (inr (delete_prop "password" user), w')
        end.
Proof.
  intros Hnd Htruthy Hhash.
  assert (Hin : "password" ∈ data.*1) by (apply prop_is_Some, truthy_value_is_Some, Htruthy).
  assert (Hne : data ≠ []) by (intros ->; inversion Hin).
  assert (Hne' : set_prop "password" (VStr hashed) data ≠ []).
  { intros Heq. apply (f_equal (fmap fst)) in Heq.
    rewrite (set_prop_keys _ _ _ Hin) in Heq. destruct data; [congruence | discriminate Heq]. }
  eexists. split; [apply (sql_nonempty data user_jsToSql Hne) |].
  rewrite (User_update_hashed username data hashed _ w w1 Htruthy Hhash
             (sql_nonempty _ user_jsToSql Hne')).
  unfold Object_keys, Object_values. simpl.
  rewrite (set_prop_keys _ _ _ Hin), (set_prop_values _ _ _ Hnd Hin), length_fmap.
  reflexivity.
Qed.

(** X11: when the body has no [password], or a falsy one such as the
    empty string, [User.update] does not call bcrypt: the world reaches the
    driver untouched, and the values, an empty password included, are sent
    as they are. *)
Theorem user_update_skips_falsy_password (username : option string)
    (data : list (string * value)) (w : world) :
  data ≠ [] →
  truthy_value (prop "password" data) = false →
  ∃ c : clause,
    sqlForPartialUpdate data user_jsToSql = inr c
    ∧ User_update db_query BCRYPT_WORK_FACTOR bcrypt_hash username data w
      = match db_query (user_update_sql (setCols c) ("$" +:+ pretty (length data + 1)))
              ((PVal ∘ Some <$> data.*2) ++ [PVal (VStr <$> username)]) w with
        | (inl err, w') => (inl err, w')
        | (inr [], w') => (inl (NotFoundError ("No user: " +:+ show_param username)), w')
        | (inr (user :: _), w') => (inr (delete_prop "password" user), w')
        end.
Proof.
  intros Hne Hfalsy. eexists. split; [apply (sql_nonempty data user_jsToSql Hne) |].
  rewrite (User_update_unhashed username data _ w Hfalsy (sql_nonempty data user_jsToSql Hne)).
  unfold Object_values. simpl. rewrite length_fmap. reflexivity.
Qed.

(** X12: [User.update] never hands back a [password] property; on an empty
    body it throws [BadRequestError("No data")] without calling bcrypt or
    the driver; and when bcrypt rejects, that error comes back and no
    statement is sent. *)
Theorem user_update_guards (username : option string) (data : list (string * value))
    (w : world) :
  (∀ user w', User_update db_query BCRYPT_WORK_FACTOR bcrypt_hash username data w
              = (inr user, w') → prop "password" user = None)
  ∧ User_update db_query BCRYPT_WORK_FACTOR bcrypt_hash username [] w
    = (inl (BadRequestError (Msg "No data")), w)
  ∧ (∀ err w1, truthy_value (prop "password" data) = true →
       bcrypt_hash (prop "password" data) BCRYPT_WORK_FACTOR w = (inl err, w1) →
       User_update db_query BCRYPT_WORK_FACTOR bcrypt_hash username data w = (inl err, w1)).
Proof.
  split; [| split].
  - intros user w'. unfold User_update, db_bind, db_ret, db_call, db_throw.
    destruct (truthy_value (prop "password" data)).
    + destruct (bcrypt_hash _ _ w) as [[err | hashed] w1]; [intros H; discriminate H |].
      destruct (sqlForPartialUpdate _ _) as [err | c]; [intros H; discriminate H |].
      destruct (db_query _ _ w1) as [[err | [| row rest]] w2]; simpl;
        intros H; try discriminate H.
      injection H as <- _. apply prop_delete_prop.
    + destruct (sqlForPartialUpdate _ _) as [err | c]; [intros H; discriminate H |].
      destruct (db_query _ _ w) as [[err | [| row rest]] w2]; simpl;
        intros H; try discriminate H.
      injection H as <- _. apply prop_delete_prop.
  - reflexivity.
  - intros err w1 Htruthy Hhash. unfold User_update, db_bind.
    rewrite Htruthy, Hhash. reflexivity.
Qed.

(** ** [User.authenticate] *)

(** X13: [User.authenticate] returns a user only when the driver found a
    row and bcrypt accepted the password against that row's hash, and the
    user it returns is that row without its [password]. An unknown username
    and a wrong password fail with the same
    [UnauthorizedError("Invalid username/password")]. *)
Theorem user_authenticate_outcomes (username password : string) (w : world) :
  (∀ user w', User_authenticate db_query bcrypt_compare username password w = (inr user, w') →
     prop "password" user = None
     ∧ ∃ row rest,
         db_query user_authenticate_sql [PVal (Some (VStr username))] w = (inr (row :: rest), w')
         ∧ bcrypt_compare password (prop "password" row) = inr true
         ∧ user = delete_prop "password" row)
  ∧ (∀ w', db_query user_authenticate_sql [PVal (Some (VStr username))] w = (inr [], w') →
       User_authenticate db_query bcrypt_compare username password w
       = (inl (UnauthorizedMessage "Invalid username/password"), w'))
  ∧ (∀ row rest w',
       db_query user_authenticate_sql [PVal (Some (VStr username))] w = (inr (row :: rest), w') →
       bcrypt_compare password (prop "password" row) = inr false →
       User_authenticate db_query bcrypt_compare username password w
       = (inl (UnauthorizedMessage "Invalid username/password"), w')).
Proof.
  unfold User_authenticate, db_bind, db_ret, db_call, db_throw, rethrown.
  split; [| split].
  - intros user w'.
    destruct (db_query _ _ w) as [[err | [| row rest]] w1] eqn:Hq; simpl;
      try (intros H; discriminate H).
    destruct (bcrypt_compare _ _) as [err | [|]] eqn:Hcmp; simpl;
      intros H; try discriminate H.
    injection H as <- <-. split; [apply prop_delete_prop |].
    exists row, rest. split; [reflexivity |]. split; [exact Hcmp | reflexivity].
  - intros w' ->. reflexivity.
  - intros row rest w' -> Hcmp. simpl. rewrite Hcmp. reflexivity.
Qed.

(** ** Duplicate checks *)

(** X14: [User.register] refuses a username that is taken before it hashes
    or inserts anything. For a free username the INSERT carries the bcrypt
    hash as its password parameter, and the result is the first row of the
    INSERT. *)
Theorem user_register_checks_first (data : newUser) (w : world) :
  (∀ row rest w1,
     db_query user_duplicate_sql [PVal (Some (VStr (nu_username data)))] w
     = (inr (row :: rest), w1) →
     User_register db_query BCRYPT_WORK_FACTOR bcrypt_hash data w
     = (inl (BadRequestError (Msg ("Duplicate username: " +:+ nu_username data))), w1))
  ∧ (∀ hashed w1 w2,
       db_query user_duplicate_sql [PVal (Some (VStr (nu_username data)))] w = (inr [], w1) →
       bcrypt_hash (nu_password data) BCRYPT_WORK_FACTOR w1 = (inr hashed, w2) →
       User_register db_query BCRYPT_WORK_FACTOR bcrypt_hash data w
       = match db_query user_insert_sql
                 [PVal (Some (VStr (nu_username data))); PVal (Some (VStr hashed));
                  PVal (nu_firstName data); PVal (nu_lastName data);
                  PVal (nu_email data); PVal (nu_isAdmin data)] w2 with
         | (inl err, w3) => (inl err, w3)
         | (inr rows, w3) => (inr (rows !! 0), w3)
         end).
Proof.
  unfold User_register, db_bind, db_ret, db_throw. split.
  - intros row rest w1 ->. reflexivity.
  - intros hashed w1 w2 -> Hhash. simpl. rewrite Hhash.
    destruct (db_query user_insert_sql _ w2) as [[err | rows] w3]; reflexivity.
Qed.

(** X15: [Company.create] refuses a handle that is taken without inserting
    anything; for a free handle it inserts the five fields in the order of
    the column list and returns the first row of the INSERT. *)
Theorem company_create_checks_first (data : newCompany) (w : world) :
  (∀ row rest w1,
     db_query company_duplicate_sql [PVal (Some (VStr (nc_handle data)))] w
     = (inr (row :: rest), w1) →
     Company_create db_query data w
     = (inl (BadRequestError (Msg ("Duplicate company: " +:+ nc_handle data))), w1))
  ∧ (∀ w1,
       db_query company_duplicate_sql [PVal (Some (VStr (nc_handle data)))] w = (inr [], w1) →
       Company_create db_query data w
       = match db_query company_insert_sql
                 [PVal (Some (VStr (nc_handle data))); PVal (nc_name data);
                  PVal (nc_description data); PVal (nc_numEmployees data);
                  PVal (nc_logoUrl data)] w1 with
         | (inl err, w2) => (inl err, w2)
         | (inr rows, w2) => (inr (rows !! 0), w2)
         end).
Proof.
  unfold Company_create, db_bind, db_ret, db_throw. split.
  - intros row rest w1 ->. reflexivity.
  - intros w1 ->. simpl.
    destruct (db_query company_insert_sql _ w1) as [[err | rows] w2]; reflexivity.
Qed.

(** ** [Company.get] *)

Lemma has_job_true (row : list (string * value)) :
  has_job row = true ↔ prop "job_id" row ≠ Some VNull.
Proof.
  unfold has_job. destruct (prop "job_id" row) as [[| b | n | s] |];
    split; congruence.
Qed.

Lemma filter_none {A : Type} (P : A → Prop) `{∀ x, Decision (P x)} (l : list A) :
  (∀ x, x ∈ l → ¬ P x) → filter P l = [].
Proof.
  induction l as [| a l IH]; [reflexivity |]. intros Hall.
  rewrite filter_cons. destruct (decide (P a)) as [Ha | _].
  - exfalso. apply (Hall a); [left | exact Ha].
  - apply IH. intros x Hx. apply Hall. right. exact Hx.
Qed.

Lemma filter_all {A : Type} (P : A → Prop) `{∀ x, Decision (P x)} (l : list A) :
  (∀ x, x ∈ l → P x) → filter P l = l.
Proof.
  induction l as [| a l IH]; [reflexivity |]. intros Hall.
  rewrite filter_cons. destruct (decide (P a)) as [_ | Ha].
  - f_equal. apply IH. intros x Hx. apply Hall. right. exact Hx.
  - exfalso. apply Ha, Hall. left.
Qed.

(** X16: [Company.get] throws [NotFoundError] when the statement returns no
    row. Otherwise the company fields are those of the first row, and
    [jobs] holds, in the order of the rows, one entry for each row whose
    [job_id] is not [null], made of that row's five job columns: never an
    entry with a [null] id, none at all for a company whose only row has no
    job, and one per row when every row has a job. *)
Theorem company_get_jobs (handle : option string) (w : world) :
  (∀ w', db_query company_get_sql [PVal (VStr <$> handle)] w = (inr [], w') →
     Company_get db_query handle w
     = (inl (NotFoundError ("No company: " +:+ show_param handle)), w'))
  ∧ (∀ first rest w',
       db_query company_get_sql [PVal (VStr <$> handle)] w = (inr (first :: rest), w') →
       ∃ c, Company_get db_query handle w = (inr c, w')
         ∧ c_handle c = prop "handle" first
         ∧ c_name c = prop "name" first
         ∧ c_description c = prop "description" first
         ∧ c_numEmployees c = prop "numEmployees" first
         ∧ c_logoUrl c = prop "logoUrl" first
         ∧ (∀ j, j ∈ c_jobs c → j_id j ≠ Some VNull)
         ∧ (length (c_jobs c) ≤ length (first :: rest))%nat
         ∧ ((∀ row, row ∈ first :: rest → prop "job_id" row = Some VNull) → c_jobs c = [])
         ∧ ((∀ row, row ∈ first :: rest → prop "job_id" row ≠ Some VNull) →
            c_jobs c = job_of_row <$> first :: rest)
         ∧ c_jobs c
           = (λ row, {| j_id := prop "job_id" row;
                        j_title := prop "job_title" row;
                        j_salary := prop "job_salary" row;
                        j_equity := prop "job_equity" row;
                        j_companyHandle := prop "job_companyHandle" row |})
             <$> filter (λ row, prop "job_id" row ≠ Some VNull) (first :: rest)).
Proof.
  unfold Company_get, db_bind, db_ret, db_throw. split.
  - intros w' ->. reflexivity.
  - intros first rest w' ->. eexists. split; [reflexivity |]. simpl.
    do 5 (split; [reflexivity |]).
    split; [| split; [| split; [| split]]].
    + intros j Hj. apply list_elem_of_fmap in Hj as (row & -> & Hrow).
      apply list_elem_of_filter in Hrow as [Hjob _]. apply has_job_true, Hjob.
    + rewrite length_fmap.
      apply (length_filter (λ row, has_job row = true) (first :: rest)).
    + intros Hnull. rewrite filter_none; [reflexivity |].
      intros row Hrow Hjob. apply has_job_true in Hjob. apply Hjob, Hnull, Hrow.
    + intros Hjobs. rewrite filter_all; [reflexivity |].
      intros row Hrow. apply has_job_true, Hjobs, Hrow.
    + unfold job_of_row. f_equal. apply list_filter_iff. intros row. apply has_job_true.
Qed.

(** ** The routes *)

Lemma guarded_proceeds {B : Type} (gate : M next_call)
    (handler : world → response B * world) (l : locals) (w : world) :
  proceeds (gate l) → guarded gate handler l w = handler w.
Proof.
  unfold proceeds, guarded. destruct (gate l) as [r l']. simpl. intros ->. reflexivity.
Qed.

Lemma guarded_signals {B : Type} (gate : M next_call)
    (handler : world → response B * world) (l : locals) (w : world) (err : jsError) :
  signals err (gate l) → guarded gate handler l w = (NextErr err, w).
Proof.
  unfold signals, guarded. destruct (gate l) as [r l']. simpl. intros ->. reflexivity.
Qed.

(** X17: the route POST /:username/jobs/:id hands [(username, jobId)] to
    [User.applyToJob], whose parameters are [(jobId, username)]. For a
    request that passed the gate, the job lookup is therefore made with the
    username and, failing, reports ["No job: <username>"]; the user lookup
    is made with the number; and the INSERT binds the username to [job_id]
    and the number to [username]. *)
Theorem apply_route_swaps_arguments (req : request) (ps : gmap string string)
    (l : locals) (w : world) :
  params req = Some ps →
  proceeds (ensureCorrectUserOrAdmin req l) →
  (∀ w1,
     db_query apply_job_sql [PVal (VStr <$> ps !! "username")] w = (inr [], w1) →
     post_user_job to_number number_to_string db_query req l w
     = (NextErr (NotFoundError ("No job: " +:+ show_param (ps !! "username"))), w1))
  ∧ (∀ row rows w1 w2,
       db_query apply_job_sql [PVal (VStr <$> ps !! "username")] w = (inr (row :: rows), w1) →
       db_query apply_user_sql [PNum (to_number (ps !! "id"))] w1 = (inr [], w2) →
       post_user_job to_number number_to_string db_query req l w
       = (NextErr (NotFoundError
                     ("No username: " +:+ number_to_string (to_number (ps !! "id")))), w2))
  ∧ (∀ row rows row' rows' w1 w2,
       db_query apply_job_sql [PVal (VStr <$> ps !! "username")] w = (inr (row :: rows), w1) →
       db_query apply_user_sql [PNum (to_number (ps !! "id"))] w1
       = (inr (row' :: rows'), w2) →
       post_user_job to_number number_to_string db_query req l w
       = match db_query apply_insert_sql
                 [PVal (VStr <$> ps !! "username"); PNum (to_number (ps !! "id"))] w2 with
         | (inl err, w3) => (NextErr err, w3)
         | (inr _, w3) => (Json (to_number (ps !! "id")), w3)
         end).
Proof.
  intros Hps Hgate. unfold post_user_job. rewrite (guarded_proceeds _ _ _ _ Hgate).
  unfold respond, route_param, User_applyToJob, db_bind, db_ret, db_throw.
  rewrite Hps. simpl. split; [| split].
  - intros w1 ->. reflexivity.
  - intros row rows w1 w2 -> Huser. simpl. rewrite Huser. reflexivity.
  - intros row rows row' rows' w1 w2 -> Huser. simpl. rewrite Huser. simpl.
    destruct (db_query apply_insert_sql _ w2) as [[err | inserted] w3]; reflexivity.
Qed.

(** X19: PATCH /:username, once the gate has let the request through,
    validates the body before anything else: with validation errors it
    passes [BadRequestError] with those errors to [next] and leaves the
    world untouched; with a valid body its answer is that of [User.update]
    for the [username] of the route. *)
Theorem patch_user_validates_first (req : request) (ps : gmap string string)
    (body : list (string * value)) (l : locals) (w : world) :
  proceeds (ensureCorrectUserOrAdmin req l) →
  (validate_userUpdate body ≠ [] →
   patch_user db_query BCRYPT_WORK_FACTOR bcrypt_hash validate_userUpdate req body l w
   = (NextErr (BadRequestError (Msgs (validate_userUpdate body))), w))
  ∧ (validate_userUpdate body = [] → params req = Some ps →
     patch_user db_query BCRYPT_WORK_FACTOR bcrypt_hash validate_userUpdate req body l w
     = match User_update db_query BCRYPT_WORK_FACTOR bcrypt_hash (ps !! "username") body w with
       | (inr user, w') => (Json user, w')
       | (inl err, w') => (NextErr err, w')
       end).
Proof.
  intros Hgate. unfold patch_user. rewrite (guarded_proceeds _ _ _ _ Hgate).
  unfold respond, route_param. split.
  - intros Herrs. rewrite bool_decide_false by exact Herrs. reflexivity.
  - intros Hvalid Hps. rewrite bool_decide_true by exact Hvalid. rewrite Hps. reflexivity.
Qed.

(** X20: DELETE /:handle of the companies router. A request that
    [ensureAdmin] refuses leaves the world untouched. For an admin the
    answer follows the DELETE statement: a rejection of the driver is
    passed on, no returned row gives [NotFoundError], and a returned row
    gives [{ deleted: handle }]. *)
Theorem delete_company_outcomes (req : request) (l : locals) (w : world) :
  (∀ err, signals err (ensureAdmin req l) → delete_company db_query req l w = (NextErr err, w))
  ∧ (∀ ps, proceeds (ensureAdmin req l) → params req = Some ps →
       delete_company db_query req l w
       = match db_query company_delete_sql [PVal (VStr <$> ps !! "handle")] w with
         | (inl err, w') => (NextErr err, w')
         | (inr [], w') =>
             (NextErr (NotFoundError ("No company: " +:+ show_param (ps !! "handle"))), w')
         | (inr (_ :: _), w') => (Json (ps !! "handle"), w')
         end).
Proof.
  unfold delete_company. split.
  - intros err Herr. apply guarded_signals, Herr.
  - intros ps Hgate Hps. rewrite (guarded_proceeds _ _ _ _ Hgate).
    unfold respond, route_param, Company_remove, db_bind, db_ret, db_throw.
    rewrite Hps. simpl.
    destruct (db_query company_delete_sql _ w) as [[err | [| row rows]] w']; reflexivity.
Qed.

(** X23: DELETE /:username, once the gate has let the request through,
    follows the DELETE statement of [User.remove]: a rejection of the driver
    is passed on, no returned row gives [NotFoundError("No user: ...")],
    and a returned row gives [{ deleted: username }]. *)
Theorem delete_user_outcomes (req : request) (ps : gmap string string)
    (l : locals) (w : world) :
  proceeds (ensureCorrectUserOrAdmin req l) →
  params req = Some ps →
  delete_user db_query req l w
  = match db_query user_delete_sql [PVal (VStr <$> ps !! "username")] w with
    | (inl err, w') => (NextErr err, w')
    | (inr [], w') =>
        (NextErr (NotFoundError ("No user: " +:+ show_param (ps !! "username"))), w')
    | (inr (_ :: _), w') => (Json (ps !! "username"), w')
    end.
Proof.
  intros Hgate Hps. unfold delete_user. rewrite (guarded_proceeds _ _ _ _ Hgate).
  unfold respond, route_param, User_remove, db_bind, db_ret, db_throw.
  rewrite Hps. simpl.
  destruct (db_query user_delete_sql _ w) as [[err | [| row rows]] w']; reflexivity.
Qed.

(** ** GET / of the companies router *)

(** X21: when both [minEmployees] and [maxEmployees] are given and the
    first converts to a larger number than the second, the handler throws
    its [BadRequestError] outside the [try] block: its promise rejects, it
    calls neither [next] nor [res.json], and neither the validator nor the
    database is reached. *)
Theorem get_companies_rejects_outside_try (q : gmap string (string + jsnum))
    (lo hi : string) (w : world) :
  q !! "minEmployees" = Some (inl lo) →
  q !! "maxEmployees" = Some (inl hi) →
  num_gt (to_number (Some lo)) (to_number (Some hi)) = true →
  get_companies to_number num_gt db_query validate_companySearch q w
  = (Rejected (BadRequestError (Msg "minEmployees cannot be greater than maxEmployees")), w).
Proof.
  intros Hlo Hhi Hgt. unfold get_companies, to_number_in_place.
  rewrite Hlo. rewrite lookup_insert_ne by discriminate. rewrite Hhi.
  rewrite lookup_insert_ne by discriminate. rewrite !lookup_insert_eq.
  rewrite Hgt. reflexivity.
Qed.

(** X22: the search filters never reach the database. Whatever the query
    string holds, a list of companies answered by GET / is the result of
    the one fixed SELECT over all companies, sent without parameters. *)
Theorem get_companies_ignores_filters (q : gmap string (string + jsnum))
    (companies : list (list (string * value))) (w w' : world) :
  get_companies to_number num_gt db_query validate_companySearch q w
  = (Answered (Json companies), w') →
  db_query company_find_all_sql [] w = (inr companies, w').
Proof.
  unfold get_companies, respond, Company_findAll, db_throw.
  destruct (match _ with Some (inr lo) => _ | _ => false end); [intros H; discriminate H |].
  destruct (negb _); [intros H; discriminate H |].
  destruct (db_query company_find_all_sql [] w) as [[err | rows] w1];
    intros H; [discriminate H |].
  injection H as <- <-. reflexivity.
Qed.

End ModelFacts.

(** ** Worked cases of the models and routes *)

Lemma user_update_sends_hash_witness :
  User_update (recording_driver (λ _ _, inr [[("username", VStr "u1")]])) 12
    (λ _ _ w, (inr "hashed", w)) (Some "u1")
    [("firstName", VStr "Ann"); ("password", VStr "pw")] []
  = (inr [("username", VStr "u1")],
     [(user_update_sql (dquote +:+ "first_name" +:+ dquote +:+ "=$1, "
                        +:+ dquote +:+ "password" +:+ dquote +:+ "=$2") "$3",
       [PVal (Some (VStr "Ann")); PVal (Some (VStr "hashed")); PVal (Some (VStr "u1"))])]).
Proof.
  destruct (user_update_sends_hash
              (recording_driver (λ _ _, inr [[("username", VStr "u1")]])) 12
              (λ _ _ w, (inr "hashed", w)) (Some "u1")
              [("firstName", VStr "Ann"); ("password", VStr "pw")] "hashed" [] [])
    as (c & Hc & Hrun); [compute_done | reflexivity | reflexivity |].
  rewrite Hrun. vm_compute in Hc. injection Hc as <-. vm_compute. reflexivity.
Defined.

Lemma user_update_skips_falsy_password_witness :
  User_update (recording_driver (λ _ _, inr [[("username", VStr "u1")]])) 12
    (λ _ _ w, (inl (DatabaseError "bcrypt must not run"), w)) (Some "u1")
    [("password", VStr EmptyString)] []
  = (inr [("username", VStr "u1")],
     [(user_update_sql (dquote +:+ "password" +:+ dquote +:+ "=$1") "$2",
       [PVal (Some (VStr EmptyString)); PVal (Some (VStr "u1"))])]).
Proof.
  destruct (user_update_skips_falsy_password
              (recording_driver (λ _ _, inr [[("username", VStr "u1")]])) 12
              (λ _ _ w, (inl (DatabaseError "bcrypt must not run"), w)) (Some "u1")
              [("password", VStr EmptyString)] [])
    as (c & Hc & Hrun); [discriminate | reflexivity |].
  rewrite Hrun. vm_compute in Hc. injection Hc as <-. vm_compute. reflexivity.
Defined.

Lemma user_update_guards_witness :
  User_update (recording_driver (λ _ _, inr [])) 12
    (λ _ _ w, (inl (DatabaseError "bcrypt failed"), w)) (Some "u1")
    [("password", VStr "pw")] []
  = (inl (DatabaseError "bcrypt failed"), []).
Proof.
  apply (proj2 (proj2 (user_update_guards (recording_driver (λ _ _, inr [])) 12
                         (λ _ _ w, (inl (DatabaseError "bcrypt failed"), w)) (Some "u1")
                         [("password", VStr "pw")] [])));
    reflexivity.
Defined.

Lemma user_authenticate_outcomes_witness :
  User_authenticate
    (recording_driver (λ _ _, inr [[("username", VStr "u1"); ("password", VStr "hash")]]))
    (λ _ _, inr false) "u1" "wrong" []
  = (inl (UnauthorizedMessage "Invalid username/password"),
     [(user_authenticate_sql, [PVal (Some (VStr "u1"))])]).
Proof.
  apply (proj2 (proj2 (user_authenticate_outcomes
           (recording_driver (λ _ _, inr [[("username", VStr "u1"); ("password", VStr "hash")]]))
           (λ _ _, inr false) "u1" "wrong" []))
           [("username", VStr "u1"); ("password", VStr "hash")] []);
    reflexivity.
Defined.

Lemma user_register_checks_first_witness :
  User_register (recording_driver (λ _ _, inr [[("username", VStr "u1")]])) 12
    (λ _ _ w, (inr "hashed", w))
    (NewUser "u1" (Some (VStr "pw")) None None None None) []
  = (inl (BadRequestError (Msg ("Duplicate username: " +:+ "u1"))),
     [(user_duplicate_sql, [PVal (Some (VStr "u1"))])]).
Proof.
  apply (proj1 (user_register_checks_first
           (recording_driver (λ _ _, inr [[("username", VStr "u1")]])) 12
           (λ _ _ w, (inr "hashed", w))
           (NewUser "u1" (Some (VStr "pw")) None None None None) [])
           [("username", VStr "u1")] []).
  reflexivity.
Defined.

Lemma company_create_checks_first_witness :
  Company_create (recording_driver (λ _ _, inr [[("handle", VStr "c1")]]))
    (NewCompany "c1" (Some (VStr "C1")) None None None) []
  = (inl (BadRequestError (Msg ("Duplicate company: " +:+ "c1"))),
     [(company_duplicate_sql, [PVal (Some (VStr "c1"))])]).
Proof.
  apply (proj1 (company_create_checks_first
           (recording_driver (λ _ _, inr [[("handle", VStr "c1")]]))
           (NewCompany "c1" (Some (VStr "C1")) None None None) [])
           [("handle", VStr "c1")] []).
  reflexivity.
Defined.

Lemma company_get_jobs_witness :
  ∃ c, Company_get
         (recording_driver (λ _ _, inr [[("handle", VStr "c1"); ("job_id", VNull)]]))
         (Some "c1") []
       = (inr c, [(company_get_sql, [PVal (Some (VStr "c1"))])])
    ∧ c_handle c = Some (VStr "c1")
    ∧ c_jobs c = [].
Proof.
  destruct (proj2 (company_get_jobs
              (recording_driver (λ _ _, inr [[("handle", VStr "c1"); ("job_id", VNull)]]))
              (Some "c1") [])
              [("handle", VStr "c1"); ("job_id", VNull)] []
              [(company_get_sql, [PVal (Some (VStr "c1"))])] eq_refl)
    as (c & Hrun & Hhandle & _ & _ & _ & _ & _ & _ & Hnone & _ & _).
  exists c. split; [exact Hrun |]. split; [exact Hhandle |].
  apply Hnone. intros row Hrow. apply list_elem_of_singleton in Hrow. subst row. reflexivity.
Defined.

(** Rows with and without a job, as the LEFT JOIN returns them. *)
Example company_get_mixed_rows :
  match (Company_get
           (recording_driver (λ _ _, inr [[("handle", VStr "c1"); ("job_id", VNum 1)];
                                         [("handle", VStr "c1"); ("job_id", VNull)];
                                         [("handle", VStr "c1"); ("job_id", VNum 3)]]))
           (Some "c1") []).1 with
  | inr c => c_jobs c
  | inl _ => []
  end
  = [Job (Some (VNum 1)) None None None None; Job (Some (VNum 3)) None None None None].
Proof. vm_compute. reflexivity. Qed.

Lemma apply_route_swaps_arguments_witness :
  post_user_job (λ _, 7%Z) pretty (recording_driver (λ _ _, inr []))
    (Request None (Some {[ "username" := "u1"; "id" := "7" ]}))
    (Locals (Some (Payload "u1" false))) []
  = (NextErr (NotFoundError ("No job: " +:+ "u1")),
     [(apply_job_sql, [PVal (Some (VStr "u1"))])]).
Proof.
  assert (Hgate : proceeds (ensureCorrectUserOrAdmin
                              (Request None (Some {[ "username" := "u1"; "id" := "7" ]}))
                              (Locals (Some (Payload "u1" false)))))
    by (vm_compute; reflexivity).
  apply (proj1 (apply_route_swaps_arguments (λ _, 7%Z) pretty
           (recording_driver (λ _ _, inr []))
           (Request None (Some {[ "username" := "u1"; "id" := "7" ]}))
           {[ "username" := "u1"; "id" := "7" ]}
           (Locals (Some (Payload "u1" false))) [] eq_refl Hgate)).
  vm_compute. reflexivity.
Defined.

Lemma patch_user_validates_first_witness :
  patch_user (recording_driver (λ _ _, inr [[("username", VStr "u1")]])) 12
    (λ _ _ w, (inr "hashed", w)) (λ _, ["instance.email does not conform"])
    (Request None (Some {[ "username" := "u1" ]})) [("email", VStr "x")]
    (Locals (Some (Payload "u1" false))) []
  = (NextErr (BadRequestError (Msgs ["instance.email does not conform"])), []).
Proof.
  assert (Hgate : proceeds (ensureCorrectUserOrAdmin
                              (Request None (Some {[ "username" := "u1" ]}))
                              (Locals (Some (Payload "u1" false)))))
    by (vm_compute; reflexivity).
  apply (proj1 (patch_user_validates_first
           (recording_driver (λ _ _, inr [[("username", VStr "u1")]])) 12
           (λ _ _ w, (inr "hashed", w)) (λ _, ["instance.email does not conform"])
           (Request None (Some {[ "username" := "u1" ]})) ∅ [("email", VStr "x")]
           (Locals (Some (Payload "u1" false))) [] Hgate)).
  discriminate.
Defined.

Lemma delete_company_outcomes_witness :
  delete_company (recording_driver (λ _ _, inr []))
    (Request None (Some {[ "handle" := "nope" ]})) (Locals (Some (Payload "root" true))) []
  = (NextErr (NotFoundError ("No company: " +:+ "nope")),
     [(company_delete_sql, [PVal (Some (VStr "nope"))])]).
Proof.
  rewrite (proj2 (delete_company_outcomes (recording_driver (λ _ _, inr []))
             (Request None (Some {[ "handle" := "nope" ]}))
             (Locals (Some (Payload "root" true))) [])
             {[ "handle" := "nope" ]} eq_refl eq_refl).
  vm_compute. reflexivity.
Defined.

Lemma get_companies_rejects_outside_try_witness :
  get_companies (λ s, if decide (s = Some "5") then 5%Z else 1%Z) Z.gtb
    (recording_driver (λ _ _, inr [])) (λ _, [])
    {[ "minEmployees" := inl "5"; "maxEmployees" := inl "1" ]} []
  = (Rejected (BadRequestError (Msg "minEmployees cannot be greater than maxEmployees")), []).
Proof.
  apply (get_companies_rejects_outside_try
           (λ s, if decide (s = Some "5") then 5%Z else 1%Z) Z.gtb
           (recording_driver (λ _ _, inr [])) (λ _, [])
           {[ "minEmployees" := inl "5"; "maxEmployees" := inl "1" ]} "5" "1" []);
    reflexivity.
Defined.

Lemma get_companies_ignores_filters_witness :
  recording_driver (λ _ _, inr [[("handle", VStr "c1")]]) company_find_all_sql [] []
  = (inr [[("handle", VStr "c1")]], [(company_find_all_sql, [])]).
Proof.
  apply (get_companies_ignores_filters (λ _, 0%Z) Z.gtb
           (recording_driver (λ _ _, inr [[("handle", VStr "c1")]])) (λ _, [])
           {[ "name" := inl "net"; "minEmployees" := inl "3" ]}
           [[("handle", VStr "c1")]] [] [(company_find_all_sql, [])]).
  vm_compute. reflexivity.
Defined.

Lemma delete_user_outcomes_witness :
  delete_user (recording_driver (λ _ _, inr [[("username", VStr "u1")]]))
    (Request None (Some {[ "username" := "u1" ]})) (Locals (Some (Payload "u1" false))) []
  = (Json (Some "u1"), [(user_delete_sql, [PVal (Some (VStr "u1"))])]).
Proof.
  assert (Hgate : proceeds (ensureCorrectUserOrAdmin
                              (Request None (Some {[ "username" := "u1" ]}))
                              (Locals (Some (Payload "u1" false)))))
    by (vm_compute; reflexivity).
  rewrite (delete_user_outcomes (recording_driver (λ _ _, inr [[("username", VStr "u1")]]))
             (Request None (Some {[ "username" := "u1" ]})) {[ "username" := "u1" ]}
             (Locals (Some (Payload "u1" false))) [] Hgate eq_refl).
  vm_compute. reflexivity.
Defined.
